(** * The dilation protocol engine of wormhole-william

    A shallow embedding of the functional core of the dilation code
    (package [wormhole]): the engine record [dilationProtocol], role
    election, the frame generators and the three state machines
    (manager, connector, L2 connection), followed by the properties
    that the specification states about them.

    Conventions of the embedding.
    - Go's [int] types ([ManagerInputEvent], [ConnectorOutputEvent], ...)
      are [Z]; the named constants are the values that [iota] gives them.
      No arithmetic is done on them, so no wrap-around is involved.
    - Go's [string] types ([ManagerState], [Role], [Candidate], ...) are
      [string]; the zero value of such a field is the empty string.
    - A slice is a [list]; a nil slice and an empty slice are both [[]]
      (they have the same length and the same elements).
    - A method with a pointer receiver that mutates the engine returns the
      new engine next to its result.  The mutexes only serialise access and
      the channels are not used by the functions embedded here, so the
      record has no field for them.
    - An [error] result is an [option string]: [None] is Go's [nil].
    - The calls of [log.Printf] write to the log and change neither the
      engine nor a result; they have no counterpart here. *)

From Stdlib Require Import ZArith List Bool Lia.
From Stdlib.Strings Require Import String Ascii Byte.
From Stdlib Require Import DecimalString.
Import ListNotations.

Local Open Scope Z_scope.
Local Open Scope string_scope.

(** ** Go's control structures and operators *)

Module Go.

(** [switch x { case k1, k2: b1 ... default: b }]: the body of the first
    case one of whose expressions equals [x], else the default. *)
Fixpoint switch {K A : Type} (eqb : K -> K -> bool) (x : K)
         (cases : list (list K * A)) (default : A) : A :=
  match cases with
  | [] => default
  | (ks, body) :: rest =>
      if existsb (eqb x) ks then body else switch eqb x rest default
  end.

(** Comparison of strings is bytewise lexicographic, as [String.compare]. *)
Definition string_gt (a b : string) : bool :=
  match String.compare a b with Gt => true | _ => false end.

Definition string_lt (a b : string) : bool :=
  match String.compare a b with Lt => true | _ => false end.

(** [for i := range s] with a single iteration variable: the variable
    takes the indices [0 .. len(s)-1], not the elements. *)
Definition range_indices {A : Type} (s : list A) : list Z :=
  map Z.of_nat (seq 0 (List.length s)).

(** [append(s, x)] *)
Definition append {A : Type} (s : list A) (x : A) : list A := (s ++ [x])%list.

Definition error : Type := option string.

Definition errors_New (msg : string) : error := Some msg.

End Go.

(** ** Types and constants *)

Definition DilationState : Type := Z.
Definition Role : Type := string.

Definition ManagerState : Type := string.
Definition ManagerInputEvent : Type := Z.
Definition ManagerOutputEvent : Type := Z.

Definition ConnectorState : Type := string.
Definition ConnectorInputEvent : Type := Z.
Definition ConnectorOutputEvent : Type := Z.

Definition L2ConnState : Type := string.
Definition L2ConnInputEvent : Type := Z.
Definition L2ConnOutputEvent : Type := Z.

Definition Candidate : Type := string.

Definition DilationNotNegotiated : DilationState := -1.
Definition DilationImpossible : DilationState := 1.
Definition DilationPossible : DilationState := 2.

Definition ManagerStateWaiting : ManagerState := "ManagerStateWaiting".
Definition ManagerStateWanting : ManagerState := "ManagerStateWanting".
Definition ManagerStateConnecting : ManagerState := "ManagerStateConnecting".
Definition ManagerStateConnected : ManagerState := "ManagerStateConnected".
Definition ManagerStateFlushing : ManagerState := "ManagerStateFlushing".
Definition ManagerStateLonely : ManagerState := "ManagerStateLonely".
Definition ManagerStateAbandoning : ManagerState := "ManagerStateAbandoning".
Definition ManagerStateStopping : ManagerState := "ManagerStateStopping".
Definition ManagerStateStopped : ManagerState := "ManagerStateStopped".

Definition ManagerInputEventStart : ManagerInputEvent := 0.
Definition ManagerInputEventRxPlease : ManagerInputEvent := 1.
Definition ManagerInputEventConnectionMade : ManagerInputEvent := 2.
Definition ManagerInputEventRxReconnecting : ManagerInputEvent := 3.
Definition ManagerInputEventRxReconnect : ManagerInputEvent := 4.
Definition ManagerInputEventConnectionLostLeader : ManagerInputEvent := 5.
Definition ManagerInputEventConnectionLostFollower : ManagerInputEvent := 6.
Definition ManagerInputEventRxHints : ManagerInputEvent := 7.
Definition ManagerInputEventStop : ManagerInputEvent := 8.

Definition ManagerOutputEventSendPlease : ManagerOutputEvent := 0.
Definition ManagerOutputEventNotifyStopped : ManagerOutputEvent := 1.
Definition ManagerOutputEventRxHints : ManagerOutputEvent := 2.
Definition ManagerOutputEventChooseRole : ManagerOutputEvent := 3.
Definition ManagerOutputEventStartConnectingIgnoreMsg : ManagerOutputEvent := 4.
Definition ManagerOutputEventUseHints : ManagerOutputEvent := 5.
Definition ManagerOutputEventStopConnecting : ManagerOutputEvent := 6.
Definition ManagerOutputEventSendReconnecting : ManagerOutputEvent := 7.
Definition ManagerOutputEventStartConnecting : ManagerOutputEvent := 8.
Definition ManagerOutputEventSendReconnect : ManagerOutputEvent := 9.
Definition ManagerOutputEventAbandonConnection : ManagerOutputEvent := 10.

Definition ConnectorStateConnecting : ConnectorState := "ConnectorStateConnecting".
Definition ConnectorStateConnected : ConnectorState := "ConnectorStateConnected".
Definition ConnectorStateStopped : ConnectorState := "ConnectorStateStopped".

Definition ConnectorInputEventListenerReady : ConnectorInputEvent := 0.
Definition ConnectorInputEventAccept : ConnectorInputEvent := 1.
Definition ConnectorInputEventAddCandidate : ConnectorInputEvent := 2.
Definition ConnectorInputEventGotHints : ConnectorInputEvent := 3.
Definition ConnectorInputEventAddRelay : ConnectorInputEvent := 4.
Definition ConnectorInputEventStop : ConnectorInputEvent := 5.

Definition ConnectorOutputEventPublishHints : ConnectorOutputEvent := 0.
Definition ConnectorOutputEventSelectAndStopRemaining : ConnectorOutputEvent := 1.
Definition ConnectorOutputEventConsider : ConnectorOutputEvent := 2.
Definition ConnectorOutputEventUseHints : ConnectorOutputEvent := 3.
Definition ConnectorOutputEventStopEverything : ConnectorOutputEvent := 4.

Definition L2ConnStateUnselected : L2ConnState := "L2ConnStateUnselected".
Definition L2ConnStateSelecting : L2ConnState := "L2ConnStateSelecting".
Definition L2ConnStateSelected : L2ConnState := "L2ConnStateSelected".

Definition L2ConnInputEventGotKCM : L2ConnInputEvent := 0.
Definition L2ConnInputEventSelect : L2ConnInputEvent := 1.
Definition L2ConnInputEventGotRecord : L2ConnInputEvent := 2.

Definition L2ConnOutputEventAddCandidate : L2ConnOutputEvent := 0.
Definition L2ConnOutputEventSetManager : L2ConnOutputEvent := 1.
Definition L2ConnOutputEventCanSendRecords : L2ConnOutputEvent := 2.
Definition L2ConnOutputEventProcessInboundQueue : L2ConnOutputEvent := 3.
Definition L2ConnOutputEventQueueInboundRecord : L2ConnOutputEvent := 4.
Definition L2ConnOutputEventDeliverRecord : L2ConnOutputEvent := 5.

Definition Leader : Role := "Leader".
Definition Follower : Role := "Follower".

(** ** The engine *)

Record dilationProtocol : Type := mkDilationProtocol {
  versions : list string;
  state : DilationState;
  managerState : ManagerState;
  connectorState : ConnectorState;
  l2ConnState : L2ConnState;
  role : Role;
  side : string
}.

(** [InitDilation]: the composite literal sets [versions], [side] and
    [managerState]; every other field keeps the zero value of its type.
    [genSide] draws the side from [crypto.RandSideID]; the drawn value is
    the argument [mySide]. *)
Definition InitDilation (mySide : string) : dilationProtocol :=
  {| versions := ["1"];
     state := 0;
     managerState := ManagerStateWaiting;
     connectorState := "";
     l2ConnState := "";
     role := "";
     side := mySide |}.

Definition set_role (r : Role) (d : dilationProtocol) : dilationProtocol :=
  {| versions := versions d;
     state := state d;
     managerState := managerState d;
     connectorState := connectorState d;
     l2ConnState := l2ConnState d;
     role := r;
     side := side d |}.

Definition chooseRole (d : dilationProtocol) (otherSide : string)
  : dilationProtocol * Go.error :=
  if Go.string_gt (side d) otherSide then
    (set_role Leader d, None)
  else if Go.string_lt (side d) otherSide then
    (set_role Follower d, None)
  else
    (d, Go.errors_New "sides shouldn't be equal").

Definition managerToNewState (newState : ManagerState) (d : dilationProtocol)
  : dilationProtocol :=
  {| versions := versions d;
     state := state d;
     managerState := newState;
     connectorState := connectorState d;
     l2ConnState := l2ConnState d;
     role := role d;
     side := side d |}.

Definition connectorToNewState (newState : ConnectorState) (d : dilationProtocol)
  : dilationProtocol :=
  {| versions := versions d;
     state := state d;
     managerState := managerState d;
     connectorState := newState;
     l2ConnState := l2ConnState d;
     role := role d;
     side := side d |}.

Definition l2ConnToNewState (newState : L2ConnState) (d : dilationProtocol)
  : dilationProtocol :=
  {| versions := versions d;
     state := state d;
     managerState := managerState d;
     connectorState := connectorState d;
     l2ConnState := newState;
     role := role d;
     side := side d |}.

Definition getState (d : dilationProtocol) : ManagerState := managerState d.

(** ** The manager state machine *)

Definition managerStateMachine (d : dilationProtocol) (event : ManagerInputEvent)
  : dilationProtocol * list ManagerOutputEvent :=
  let currState := managerState d in
  Go.switch Z.eqb event [
    ([ManagerInputEventStart],
      Go.switch String.eqb currState [
        ([ManagerStateWaiting],
          (managerToNewState ManagerStateWanting d,
           [ManagerOutputEventSendPlease]))
      ] (d, []));
    ([ManagerInputEventRxPlease],
      Go.switch String.eqb currState [
        ([ManagerStateWanting],
          (managerToNewState ManagerStateConnecting d,
           [ManagerOutputEventChooseRole;
            ManagerOutputEventStartConnectingIgnoreMsg]))
      ] (d, []));
    ([ManagerInputEventConnectionMade],
      Go.switch String.eqb currState [
        ([ManagerStateConnecting],
          (managerToNewState ManagerStateConnected d, []))
      ] (d, []));
    ([ManagerInputEventRxReconnecting],
      Go.switch String.eqb currState [
        ([ManagerStateFlushing],
          (managerToNewState ManagerStateConnecting d,
           [ManagerOutputEventStartConnecting]))
      ] (d, []));
    ([ManagerInputEventRxReconnect],
      Go.switch String.eqb currState [
        ([ManagerStateConnected],
          (managerToNewState ManagerStateAbandoning d,
           [ManagerOutputEventAbandonConnection]));
        ([ManagerStateConnecting],
          (d,
           [ManagerOutputEventStopConnecting;
            ManagerOutputEventSendReconnecting;
            ManagerOutputEventStartConnecting]));
        ([ManagerStateLonely],
          (managerToNewState ManagerStateConnecting d,
           [ManagerOutputEventSendReconnecting;
            ManagerOutputEventStartConnecting]))
      ] (d, []));
    ([ManagerInputEventConnectionLostLeader],
      Go.switch String.eqb currState [
        ([ManagerStateConnected],
          (managerToNewState ManagerStateFlushing d,
           [ManagerOutputEventSendReconnect]));
        ([ManagerStateStopping],
          (managerToNewState ManagerStateStopped d,
           [ManagerOutputEventNotifyStopped]))
      ] (d, []));
    ([ManagerInputEventConnectionLostFollower],
      Go.switch String.eqb currState [
        ([ManagerStateConnected],
          (managerToNewState ManagerStateLonely d, []));
        ([ManagerStateAbandoning],
          (managerToNewState ManagerStateConnecting d,
           [ManagerOutputEventSendReconnecting;
            ManagerOutputEventStartConnecting]));
        ([ManagerStateStopping],
          (managerToNewState ManagerStateStopped d,
           [ManagerOutputEventNotifyStopped]))
      ] (d, []));
    ([ManagerInputEventRxHints],
      Go.switch String.eqb currState [
        ([ManagerStateWanting; ManagerStateConnected; ManagerStateAbandoning;
          ManagerStateFlushing; ManagerStateLonely; ManagerStateStopping],
          (d, []));
        ([ManagerStateConnecting],
          (d, [ManagerOutputEventUseHints]))
      ] (d, []));
    ([ManagerInputEventStop],
      Go.switch String.eqb currState [
        ([ManagerStateWaiting; ManagerStateWanting; ManagerStateLonely;
          ManagerStateFlushing],
          (managerToNewState ManagerStateStopped d,
           [ManagerOutputEventNotifyStopped]));
        ([ManagerStateConnecting],
          (managerToNewState ManagerStateStopped d,
           [ManagerOutputEventStopConnecting;
            ManagerOutputEventNotifyStopped]));
        ([ManagerStateConnected],
          (managerToNewState ManagerStateStopping d,
           [ManagerOutputEventAbandonConnection]));
        ([ManagerStateAbandoning],
          (managerToNewState ManagerStateStopping d, []))
      ] (d, []))
  ] (d, []).

(** ** The connector state machine *)

Definition connectorStateMachine (d : dilationProtocol) (event : ConnectorInputEvent)
  : dilationProtocol * list ConnectorOutputEvent :=
  let currState := connectorState d in
  Go.switch Z.eqb event [
    ([ConnectorInputEventListenerReady],
      Go.switch String.eqb currState [
        ([ConnectorStateConnecting],
          (d, [ConnectorOutputEventPublishHints]));
        ([ConnectorStateConnected], (d, []))
      ] (d, []));
    ([ConnectorInputEventAccept],
      Go.switch String.eqb currState [
        ([ConnectorStateConnecting],
          (connectorToNewState ConnectorStateConnected d,
           [ConnectorOutputEventSelectAndStopRemaining]))
      ] (d, []));
    ([ConnectorInputEventAddCandidate],
      Go.switch String.eqb currState [
        ([ConnectorStateConnecting],
          (d, [ConnectorOutputEventConsider]))
      ] (d, []));
    ([ConnectorInputEventGotHints],
      Go.switch String.eqb currState [
        ([ConnectorStateConnecting],
          (d, [ConnectorOutputEventUseHints]))
      ] (d, []));
    ([ConnectorInputEventAddRelay],
      Go.switch String.eqb currState [
        ([ConnectorStateConnecting],
          (d, [ConnectorOutputEventUseHints;
               ConnectorOutputEventPublishHints]))
      ] (d, []));
    ([ConnectorInputEventStop],
      Go.switch String.eqb currState [
        ([ConnectorStateConnecting; ConnectorStateConnected],
          (connectorToNewState ConnectorStateStopped d,
           [ConnectorOutputEventStopEverything]))
      ] (d, []))
  ] (d, []).

(** ** The L2 connection state machine *)

Definition l2ConnStateMachine (d : dilationProtocol) (event : L2ConnInputEvent)
  : dilationProtocol * list L2ConnOutputEvent :=
  let currState := l2ConnState d in
  Go.switch Z.eqb event [
    ([L2ConnInputEventGotKCM],
      Go.switch String.eqb currState [
        ([L2ConnStateUnselected],
          (l2ConnToNewState L2ConnStateSelecting d,
           [L2ConnOutputEventAddCandidate]))
      ] (d, []));
    ([L2ConnInputEventSelect],
      Go.switch String.eqb currState [
        ([L2ConnStateSelecting],
          (l2ConnToNewState L2ConnStateSelected d,
           [L2ConnOutputEventSetManager;
            L2ConnOutputEventCanSendRecords;
            L2ConnOutputEventProcessInboundQueue]))
      ] (d, []));
    ([L2ConnInputEventGotRecord],
      Go.switch String.eqb currState [
        ([L2ConnStateSelecting],
          (d, [L2ConnOutputEventQueueInboundRecord]));
        ([L2ConnStateSelected],
          (d, [L2ConnOutputEventDeliverRecord]))
      ] (d, []))
  ] (d, []).

(** ** Events with payloads *)

Module ConnectorInputEventS.
Record t (transitHintsV1 : Type) : Type := mk {
  Event : ConnectorInputEvent;
  hints : transitHintsV1;
  candidate : Candidate
}.
Arguments mk {transitHintsV1}.
Arguments Event {transitHintsV1}.
Arguments hints {transitHintsV1}.
Arguments candidate {transitHintsV1}.
End ConnectorInputEventS.

Module ConnectorOutputEventS.
Record t (transitHintsV1 : Type) : Type := mk {
  Event : ConnectorOutputEvent;
  hints : transitHintsV1;
  candidate : Candidate
}.
Arguments mk {transitHintsV1}.
Arguments Event {transitHintsV1}.
Arguments hints {transitHintsV1}.
Arguments candidate {transitHintsV1}.
End ConnectorOutputEventS.

Module L2ConnInputEventS.
Record t : Type := mk {
  Event : L2ConnInputEvent;
  candidate : Candidate
}.
End L2ConnInputEventS.

Module L2ConnOutputEventS.
Record t : Type := mk {
  Event : L2ConnOutputEvent;
  candidate : Candidate
}.
End L2ConnOutputEventS.

Section Connector.

(** The type of a hints payload is declared in the transit code of the
    package; the connector only copies values of it.  [noHints] is its
    zero value, which a composite literal without a [hints] field holds. *)
Variable transitHintsV1 : Type.
Variable noHints : transitHintsV1.

(** The loop is [for output := range outputs]: [output] runs over the
    indices of [outputs], and the [switch] compares that index with the
    output event constants. *)
Definition processConnectorStateMachine (d : dilationProtocol)
           (input : ConnectorInputEventS.t transitHintsV1)
  : dilationProtocol * list (ConnectorOutputEventS.t transitHintsV1) :=
  let '(d', outputs) := connectorStateMachine d (ConnectorInputEventS.Event input) in
  let outputEvents :=
    fold_left
      (fun outputEvents output =>
         Go.switch Z.eqb output [
           ([ConnectorOutputEventPublishHints],
             Go.append outputEvents
               (ConnectorOutputEventS.mk ConnectorOutputEventPublishHints
                  (ConnectorInputEventS.hints input) ""));
           ([ConnectorOutputEventSelectAndStopRemaining],
             Go.append outputEvents
               (ConnectorOutputEventS.mk ConnectorOutputEventSelectAndStopRemaining
                  noHints (ConnectorInputEventS.candidate input)));
           ([ConnectorOutputEventConsider],
             Go.append outputEvents
               (ConnectorOutputEventS.mk ConnectorOutputEventConsider
                  noHints (ConnectorInputEventS.candidate input)));
           ([ConnectorOutputEventUseHints],
             Go.append outputEvents
               (ConnectorOutputEventS.mk ConnectorOutputEventUseHints
                  (ConnectorInputEventS.hints input) ""));
           ([ConnectorOutputEventStopEverything],
             Go.append outputEvents
               (ConnectorOutputEventS.mk ConnectorOutputEventStopEverything
                  noHints ""))
         ] outputEvents)
      (Go.range_indices outputs) []
  in
  (d', outputEvents).

End Connector.

Arguments processConnectorStateMachine {transitHintsV1}.

Definition processL2ConnStateMachine (d : dilationProtocol)
           (input : L2ConnInputEventS.t)
  : dilationProtocol * list L2ConnOutputEventS.t :=
  let '(d', outputs) := l2ConnStateMachine d (L2ConnInputEventS.Event input) in
  let outputEvents :=
    fold_left
      (fun outputEvents output =>
         Go.switch Z.eqb output [
           ([L2ConnOutputEventAddCandidate],
             Go.append outputEvents
               (L2ConnOutputEventS.mk L2ConnOutputEventAddCandidate
                  (L2ConnInputEventS.candidate input)));
           ([L2ConnOutputEventSetManager],
             Go.append outputEvents (L2ConnOutputEventS.mk L2ConnOutputEventSetManager ""));
           ([L2ConnOutputEventCanSendRecords],
             Go.append outputEvents (L2ConnOutputEventS.mk L2ConnOutputEventCanSendRecords ""));
           ([L2ConnOutputEventProcessInboundQueue],
             Go.append outputEvents
               (L2ConnOutputEventS.mk L2ConnOutputEventProcessInboundQueue ""));
           ([L2ConnOutputEventQueueInboundRecord],
             Go.append outputEvents
               (L2ConnOutputEventS.mk L2ConnOutputEventQueueInboundRecord ""));
           ([L2ConnOutputEventDeliverRecord],
             Go.append outputEvents (L2ConnOutputEventS.mk L2ConnOutputEventDeliverRecord ""))
         ] outputEvents)
      (Go.range_indices outputs) []
  in
  (d', outputEvents).

(** ** Frames *)

(** [encoding/json]: what [json.Marshal] does with a struct value whose
    fields are strings.  Only exported fields (those whose Go name starts
    with an upper-case letter) are encoded; an encoded field becomes the
    member [key:value] of the object, [key] being the name given by the
    field's [json] tag. *)
Module json.

Record structField : Type := mkField {
  goName : string;
  key : string;
  value : string
}.

Definition isUpper (c : ascii) : bool :=
  ((65 <=? N_of_ascii c) && (N_of_ascii c <=? 90))%N.

Definition exported (f : structField) : bool :=
  match goName f with
  | EmptyString => false
  | String c _ => isUpper c
  end.

Definition members (fields : list structField) : list (string * string) :=
  map (fun f => (key f, value f)) (filter exported fields).

Section Render.

(** The rendering of a Go string as a JSON string literal (quotes and
    escapes) is the library's. *)
Variable quote : string -> string.

Definition member (kv : string * string) : string :=
  quote (fst kv) ++ ":" ++ quote (snd kv).

Definition object (ms : list (string * string)) : string :=
  "{" ++ String.concat "," (map member ms) ++ "}".

Definition Marshal (fields : list structField) : list Byte.byte * Go.error :=
  (list_byte_of_string (object (members fields)), None).

End Render.

End json.

(** [hex.EncodeToString]: two lower-case hexadecimal digits per byte. *)
Module hex.

Definition hextable : string := "0123456789abcdef".

Definition digit (n : N) : ascii :=
  match String.get (N.to_nat n) hextable with
  | Some c => c
  | None => "0"%char
  end.

Definition EncodeToString (src : list Byte.byte) : string :=
  string_of_list_ascii
    (flat_map (fun b => let v := Byte.to_N b in
                        [digit (N.shiftr v 4); digit (N.land v 15)])
              src).

End hex.

(** [fmt.Sprintf("dilate-%d", phase)] *)
Definition Sprintf_dilate (phase : Z) : string :=
  "dilate-" ++ DecimalString.NilZero.string_of_int (Z.to_int phase).

Definition pleaseMsg (tipe side : string) : list json.structField :=
  [ json.mkField "tipe" "type" tipe;
    json.mkField "side" "side" side ].

Definition dilateAddMsg (tipe phase body : string) : list json.structField :=
  [ json.mkField "tipe" "type" tipe;
    json.mkField "phase" "phase" phase;
    json.mkField "body" "body" body ].

Section Frames.

Variable quote : string -> string.

Definition genDilationMsg (payload : list Byte.byte) (phase : Z)
  : list Byte.byte * Go.error :=
  let msg_tipe := "add" in
  let msg_phase := Sprintf_dilate phase in
  let msg_body := hex.EncodeToString payload in
  json.Marshal quote (dilateAddMsg msg_tipe msg_phase msg_body).

Definition genPleaseMsg (d : dilationProtocol) : list Byte.byte * Go.error :=
  let please := pleaseMsg "please" (side d) in
  json.Marshal quote please.

End Frames.

(** ** The frames as the specification writes them *)

Module WireSpec.

Definition dquote : string := String (ascii_of_nat 34) "".

(** A string literal whose content needs no escape. *)
Definition lit (s : string) : string := dquote ++ s ++ dquote.

(** The please frame: the object with "type" please and "side" [s]. *)
Definition please (s : string) : string :=
  "{" ++ lit "type" ++ ":" ++ lit "please" ++ "," ++
         lit "side" ++ ":" ++ lit s ++ "}".

(** The dilation payload wrapper: "type" add, "phase" dilate-[n] and
    "body" the hexadecimal rendering of the payload. *)
Definition add (p : list Byte.byte) (n : Z) : string :=
  "{" ++ lit "type" ++ ":" ++ lit "add" ++ "," ++
         lit "phase" ++ ":" ++ lit (Sprintf_dilate n) ++ "," ++
         lit "body" ++ ":" ++ lit (hex.EncodeToString p) ++ "}".

End WireSpec.

(** ** The order of sides *)

(** The lexicographic order on byte strings, stated on its own: a proper
    prefix comes first, otherwise the first differing byte decides. *)
Inductive lex_lt : string -> string -> Prop :=
| lex_lt_prefix : forall c s, lex_lt "" (String c s)
| lex_lt_head : forall c1 c2 s1 s2,
    (N_of_ascii c1 < N_of_ascii c2)%N -> lex_lt (String c1 s1) (String c2 s2)
| lex_lt_tail : forall c s1 s2,
    lex_lt s1 s2 -> lex_lt (String c s1) (String c s2).

(** ** The transition table of the manager *)

(** The transition table of the specification, read row by row; an entry is
    (state, event, next state, outputs). *)
Module ManagerSpec.

Definition entry : Type :=
  (ManagerState * ManagerInputEvent * ManagerState * list ManagerOutputEvent)%type.

Definition transition_table : list entry :=
  [ (ManagerStateWaiting, ManagerInputEventStart,
     ManagerStateWanting, [ManagerOutputEventSendPlease]);
    (ManagerStateWaiting, ManagerInputEventStop,
     ManagerStateStopped, [ManagerOutputEventNotifyStopped]);
    (ManagerStateWanting, ManagerInputEventRxPlease,
     ManagerStateConnecting,
     [ManagerOutputEventChooseRole; ManagerOutputEventStartConnectingIgnoreMsg]);
    (ManagerStateWanting, ManagerInputEventRxHints,
     ManagerStateWanting, []);
    (ManagerStateWanting, ManagerInputEventStop,
     ManagerStateStopped, [ManagerOutputEventNotifyStopped]);
    (ManagerStateConnecting, ManagerInputEventConnectionMade,
     ManagerStateConnected, []);
    (ManagerStateConnecting, ManagerInputEventRxReconnect,
     ManagerStateConnecting,
     [ManagerOutputEventStopConnecting; ManagerOutputEventSendReconnecting;
      ManagerOutputEventStartConnecting]);
    (ManagerStateConnecting, ManagerInputEventRxHints,
     ManagerStateConnecting, [ManagerOutputEventUseHints]);
    (ManagerStateConnecting, ManagerInputEventStop,
     ManagerStateStopped,
     [ManagerOutputEventStopConnecting; ManagerOutputEventNotifyStopped]);
    (ManagerStateConnected, ManagerInputEventRxReconnect,
     ManagerStateAbandoning, [ManagerOutputEventAbandonConnection]);
    (ManagerStateConnected, ManagerInputEventConnectionLostLeader,
     ManagerStateFlushing, [ManagerOutputEventSendReconnect]);
    (ManagerStateConnected, ManagerInputEventConnectionLostFollower,
     ManagerStateLonely, []);
    (ManagerStateConnected, ManagerInputEventRxHints,
     ManagerStateConnected, []);
    (ManagerStateConnected, ManagerInputEventStop,
     ManagerStateStopping, [ManagerOutputEventAbandonConnection]);
    (ManagerStateFlushing, ManagerInputEventRxReconnecting,
     ManagerStateConnecting, [ManagerOutputEventStartConnecting]);
    (ManagerStateFlushing, ManagerInputEventRxHints,
     ManagerStateFlushing, []);
    (ManagerStateFlushing, ManagerInputEventStop,
     ManagerStateStopped, [ManagerOutputEventNotifyStopped]);
    (ManagerStateLonely, ManagerInputEventRxReconnect,
     ManagerStateConnecting,
     [ManagerOutputEventSendReconnecting; ManagerOutputEventStartConnecting]);
    (ManagerStateLonely, ManagerInputEventStop,
     ManagerStateStopped, [ManagerOutputEventNotifyStopped]);
    (ManagerStateAbandoning, ManagerInputEventConnectionLostFollower,
     ManagerStateConnecting,
     [ManagerOutputEventSendReconnecting; ManagerOutputEventStartConnecting]);
    (ManagerStateAbandoning, ManagerInputEventStop,
     ManagerStateStopping, []);
    (ManagerStateStopping, ManagerInputEventConnectionLostLeader,
     ManagerStateStopped, [ManagerOutputEventNotifyStopped]);
    (ManagerStateStopping, ManagerInputEventConnectionLostFollower,
     ManagerStateStopped, [ManagerOutputEventNotifyStopped]) ].

Definition matches (s : ManagerState) (e : ManagerInputEvent) (r : entry) : bool :=
  let '(s0, e0, _, _) := r in Z.eqb e e0 && String.eqb s s0.

Definition lookup (s : ManagerState) (e : ManagerInputEvent) : option entry :=
  find (matches s e) transition_table.

Definition listed (s : ManagerState) (e : ManagerInputEvent) : bool :=
  match lookup s e with Some _ => true | None => false end.

(** The step that the table prescribes: the listed entry if there is one,
    else no change and no output. *)
Definition step (s : ManagerState) (e : ManagerInputEvent)
  : ManagerState * list ManagerOutputEvent :=
  match lookup s e with
  | Some (_, _, s', outs) => (s', outs)
  | None => (s, [])
  end.

End ManagerSpec.

(** ** The payload wrapper of the connector, by index *)

Section ConnectorIndex.

Variable transitHintsV1 : Type.
Variable noHints : transitHintsV1.

(** What the loop of [processConnectorStateMachine] appends for the output
    at index [i] of a list of at most two outputs. *)
Definition eventAtIndex (input : ConnectorInputEventS.t transitHintsV1) (i : Z)
  : list (ConnectorOutputEventS.t transitHintsV1) :=
  if Z.eqb i 0 then
    [ConnectorOutputEventS.mk ConnectorOutputEventPublishHints
       (ConnectorInputEventS.hints input) ""]
  else if Z.eqb i 1 then
    [ConnectorOutputEventS.mk ConnectorOutputEventSelectAndStopRemaining
       noHints (ConnectorInputEventS.candidate input)]
  else [].

(** The wrapper as the specification words it: every output event of the
    connector is kept, in order, and carries the payload relevant to it, the
    input's hints for PublishHints and UseHints and the input's candidate
    for SelectAndStopRemaining and Consider. *)
Definition carryPayload (input : ConnectorInputEventS.t transitHintsV1)
           (output : ConnectorOutputEvent)
  : ConnectorOutputEventS.t transitHintsV1 :=
  if Z.eqb output ConnectorOutputEventPublishHints
     || Z.eqb output ConnectorOutputEventUseHints
  then ConnectorOutputEventS.mk output (ConnectorInputEventS.hints input) ""
  else if Z.eqb output ConnectorOutputEventSelectAndStopRemaining
          || Z.eqb output ConnectorOutputEventConsider
  then ConnectorOutputEventS.mk output noHints (ConnectorInputEventS.candidate input)
  else ConnectorOutputEventS.mk output noHints "".

Definition processConnectorSpec (d : dilationProtocol)
           (input : ConnectorInputEventS.t transitHintsV1)
  : dilationProtocol * list (ConnectorOutputEventS.t transitHintsV1) :=
  let '(d', outputs) := connectorStateMachine d (ConnectorInputEventS.Event input) in
  (d', map (carryPayload input) outputs).

End ConnectorIndex.

Arguments eventAtIndex {transitHintsV1}.
Arguments carryPayload {transitHintsV1}.
Arguments processConnectorSpec {transitHintsV1}.

(** ** The scenario of equal sides *)

(** The engine of the scenario: created with side 0000000000000000, started,
    and having received the peer's please. *)
Definition equalSidesEngine : dilationProtocol :=
  fst (managerStateMachine
         (fst (managerStateMachine (InitDilation "0000000000000000")
                 ManagerInputEventStart))
         ManagerInputEventRxPlease).

(** ** Frame types and manager events *)

(** [receiveDilationMsg] turns the "type" of a decrypted frame into a
    manager input event with the map literal [eventMap]; a type that is not
    a key gives no event.  (The goroutine around it, which reads frames from
    a channel and writes events to another, is not embedded.) *)
Definition eventMap : list (string * ManagerInputEvent) :=
  [ ("please", ManagerInputEventRxPlease);
    ("connection-hints", ManagerInputEventRxHints);
    ("reconnect", ManagerInputEventRxReconnect);
    ("reconnecting", ManagerInputEventRxReconnecting) ].

Definition eventMap_lookup (eventTxt : string) : option ManagerInputEvent :=
  option_map snd (find (fun kv => String.eqb eventTxt (fst kv)) eventMap).

(** ** Sequences of events *)

(** A machine fed a sequence of events, one step per event: the engine at
    the end and the outputs of the steps in order. *)
Fixpoint runMachine {E O : Type}
         (step : dilationProtocol -> E -> dilationProtocol * list O)
         (d : dilationProtocol) (events : list E) : dilationProtocol * list O :=
  match events with
  | [] => (d, [])
  | e :: rest =>
      let '(d1, out1) := step d e in
      let '(d2, out2) := runMachine step d1 rest in
      (d2, (out1 ++ out2)%list)
  end.

Definition managerRun := runMachine managerStateMachine.
Definition connectorRun := runMachine connectorStateMachine.
Definition l2ConnRun := runMachine l2ConnStateMachine.

(** The nine named manager states. *)
Definition managerStates : list ManagerState :=
  [ ManagerStateWaiting; ManagerStateWanting; ManagerStateConnecting;
    ManagerStateConnected; ManagerStateFlushing; ManagerStateLonely;
    ManagerStateAbandoning; ManagerStateStopping; ManagerStateStopped ].

(** ** The transitions of the connector, as a table *)

Module ConnectorTable.

Definition entry : Type :=
  (ConnectorState * ConnectorInputEvent * ConnectorState *
   list ConnectorOutputEvent)%type.

(** One entry per case of the nested [switch] that has an effect. *)
Definition transitions : list entry :=
  [ (ConnectorStateConnecting, ConnectorInputEventListenerReady,
     ConnectorStateConnecting, [ConnectorOutputEventPublishHints]);
    (ConnectorStateConnecting, ConnectorInputEventAccept,
     ConnectorStateConnected, [ConnectorOutputEventSelectAndStopRemaining]);
    (ConnectorStateConnecting, ConnectorInputEventAddCandidate,
     ConnectorStateConnecting, [ConnectorOutputEventConsider]);
    (ConnectorStateConnecting, ConnectorInputEventGotHints,
     ConnectorStateConnecting, [ConnectorOutputEventUseHints]);
    (ConnectorStateConnecting, ConnectorInputEventAddRelay,
     ConnectorStateConnecting,
     [ConnectorOutputEventUseHints; ConnectorOutputEventPublishHints]);
    (ConnectorStateConnecting, ConnectorInputEventStop,
     ConnectorStateStopped, [ConnectorOutputEventStopEverything]);
    (ConnectorStateConnected, ConnectorInputEventStop,
     ConnectorStateStopped, [ConnectorOutputEventStopEverything]) ].

Definition matches (s : ConnectorState) (e : ConnectorInputEvent) (r : entry) : bool :=
  let '(s0, e0, _, _) := r in Z.eqb e e0 && String.eqb s s0.

Definition step (s : ConnectorState) (e : ConnectorInputEvent)
  : ConnectorState * list ConnectorOutputEvent :=
  match find (matches s e) transitions with
  | Some (_, _, s', outs) => (s', outs)
  | None => (s, [])
  end.

End ConnectorTable.

(** ** The transitions of the L2 connection, as a table *)

Module L2ConnTable.

Definition entry : Type :=
  (L2ConnState * L2ConnInputEvent * L2ConnState * list L2ConnOutputEvent)%type.

Definition transitions : list entry :=
  [ (L2ConnStateUnselected, L2ConnInputEventGotKCM,
     L2ConnStateSelecting, [L2ConnOutputEventAddCandidate]);
    (L2ConnStateSelecting, L2ConnInputEventSelect,
     L2ConnStateSelected,
     [L2ConnOutputEventSetManager; L2ConnOutputEventCanSendRecords;
      L2ConnOutputEventProcessInboundQueue]);
    (L2ConnStateSelecting, L2ConnInputEventGotRecord,
     L2ConnStateSelecting, [L2ConnOutputEventQueueInboundRecord]);
    (L2ConnStateSelected, L2ConnInputEventGotRecord,
     L2ConnStateSelected, [L2ConnOutputEventDeliverRecord]) ].

Definition matches (s : L2ConnState) (e : L2ConnInputEvent) (r : entry) : bool :=
  let '(s0, e0, _, _) := r in Z.eqb e e0 && String.eqb s s0.

Definition step (s : L2ConnState) (e : L2ConnInputEvent)
  : L2ConnState * list L2ConnOutputEvent :=
  match find (matches s e) transitions with
  | Some (_, _, s', outs) => (s', outs)
  | None => (s, [])
  end.

End L2ConnTable.

(** What the loop of [processL2ConnStateMachine] appends for the output at
    index [i] of a list of at most three outputs. *)
Definition l2EventAtIndex (input : L2ConnInputEventS.t) (i : Z)
  : list L2ConnOutputEventS.t :=
  if Z.eqb i 0 then
    [L2ConnOutputEventS.mk L2ConnOutputEventAddCandidate
       (L2ConnInputEventS.candidate input)]
  else if Z.eqb i 1 then
    [L2ConnOutputEventS.mk L2ConnOutputEventSetManager ""]
  else if Z.eqb i 2 then
    [L2ConnOutputEventS.mk L2ConnOutputEventCanSendRecords ""]
  else [].

(** ** Wormhole codes *)

(** [strings.Contains(s, substr)]: [substr] is a prefix of a suffix of [s]. *)
Fixpoint strings_Contains (s substr : string) : bool :=
  String.prefix substr s ||
  match s with
  | EmptyString => false
  | String _ rest => strings_Contains rest substr
  end.

Section Codes.

(** [nameplateFromCode] is declared in another file of the package; it
    returns a nameplate and an error. *)
Variable nameplateFromCode : string -> string * Go.error.

Definition validateCode (code : string) : Go.error :=
  if String.eqb code "" then None
  else
    let '(_, err) := nameplateFromCode code in
    match err with
    | Some e => Some e
    | None =>
        if strings_Contains code " " then
          Go.errors_New "code must not contain spaces"
        else None
    end.

End Codes.

(** * Properties *)

(** Case analysis on the tests of a [switch]: first the event, then the
    state; each test is replaced by its outcome and the equation is used. *)
Ltac switch_event e :=
  repeat match goal with
         | |- context [Z.eqb e ?k] => destruct (Z.eqb_spec e k); [subst e|]
         end.

Ltac switch_state s :=
  repeat match goal with
         | |- context [String.eqb s ?k] =>
             destruct (String.eqb_spec s k); [subst s|]
         end.

(** ** Strings *)

Lemma ascii_compare_refl (c : ascii) : Ascii.compare c c = Eq.
Proof. unfold Ascii.compare. apply N.compare_refl. Qed.

Lemma string_compare_refl (s : string) : String.compare s s = Eq.
Proof.
  induction s as [|c s IH]; simpl; [reflexivity|].
  now rewrite ascii_compare_refl.
Qed.

Lemma string_compare_Lt_lex (a b : string) :
  String.compare a b = Lt <-> lex_lt a b.
Proof.
  split.
  - revert b. induction a as [|c a IH]; intros [|c' b] H; simpl in H;
      try discriminate; [constructor|].
    destruct (Ascii.compare c c') eqn:E; try discriminate.
    + apply Ascii.compare_eq_iff in E. subst c'. apply lex_lt_tail. now apply IH.
    + apply lex_lt_head. unfold Ascii.compare in E. now apply N.compare_lt_iff.
  - induction 1 as [c s|c1 c2 s1 s2 Hlt|c s1 s2 _ IH]; simpl.
    + reflexivity.
    + unfold Ascii.compare. apply N.compare_lt_iff in Hlt. now rewrite Hlt.
    + now rewrite ascii_compare_refl.
Qed.

Lemma string_compare_Gt_lex (a b : string) :
  String.compare a b = Gt <-> lex_lt b a.
Proof.
  rewrite <- string_compare_Lt_lex, (String.compare_antisym b a).
  destruct (String.compare a b); simpl; split; congruence.
Qed.

Lemma string_gt_lex (a b : string) : Go.string_gt a b = true <-> lex_lt b a.
Proof.
  rewrite <- string_compare_Gt_lex. unfold Go.string_gt.
  destruct (String.compare a b); split; congruence.
Qed.

Lemma string_lt_lex (a b : string) : Go.string_lt a b = true <-> lex_lt a b.
Proof.
  rewrite <- string_compare_Lt_lex. unfold Go.string_lt.
  destruct (String.compare a b); split; congruence.
Qed.

Lemma lex_lt_irrefl (a : string) : ~ lex_lt a a.
Proof.
  intros H. apply string_compare_Lt_lex in H.
  rewrite string_compare_refl in H. discriminate.
Qed.

Lemma lex_lt_asym (a b : string) : lex_lt a b -> ~ lex_lt b a.
Proof.
  intros H H'. apply string_compare_Lt_lex in H. apply string_compare_Gt_lex in H'.
  congruence.
Qed.

Lemma lex_trichotomy (a b : string) : lex_lt a b \/ a = b \/ lex_lt b a.
Proof.
  destruct (String.compare a b) eqn:E.
  - right; left. now apply String.compare_eq_iff.
  - left. now apply string_compare_Lt_lex.
  - right; right. now apply string_compare_Gt_lex.
Qed.

(** ** Role election *)

Lemma chooseRole_greater (d : dilationProtocol) (otherSide : string) :
  lex_lt otherSide (side d) -> chooseRole d otherSide = (set_role Leader d, None).
Proof.
  intros H. unfold chooseRole.
  apply string_gt_lex in H. now rewrite H.
Qed.

Lemma chooseRole_less (d : dilationProtocol) (otherSide : string) :
  lex_lt (side d) otherSide -> chooseRole d otherSide = (set_role Follower d, None).
Proof.
  intros H. unfold chooseRole.
  destruct (Go.string_gt (side d) otherSide) eqn:G.
  - apply string_gt_lex in G. now destruct (lex_lt_asym _ _ H).
  - apply string_lt_lex in H. now rewrite H.
Qed.

Lemma chooseRole_equal (d : dilationProtocol) :
  chooseRole d (side d) = (d, Go.errors_New "sides shouldn't be equal").
Proof.
  unfold chooseRole, Go.string_gt, Go.string_lt.
  now rewrite string_compare_refl.
Qed.

(** C1. For distinct sides [chooseRole] sets the role to Leader when the
    local side is lexicographically strictly greater than the peer side and
    to Follower when it is strictly less, every other field of the engine
    being kept, and returns no error; it returns an error if and only if
    the two sides are equal, and then the role, as the whole engine, is
    left as it was. *)
Theorem chooseRole_election (d : dilationProtocol) (otherSide : string) :
  (lex_lt otherSide (side d) ->
     role (fst (chooseRole d otherSide)) = Leader /\
     chooseRole d otherSide =
       (mkDilationProtocol (versions d) (state d) (managerState d)
          (connectorState d) (l2ConnState d) Leader (side d), None)) /\
  (lex_lt (side d) otherSide ->
     role (fst (chooseRole d otherSide)) = Follower /\
     chooseRole d otherSide =
       (mkDilationProtocol (versions d) (state d) (managerState d)
          (connectorState d) (l2ConnState d) Follower (side d), None)) /\
  (snd (chooseRole d otherSide) <> None <-> side d = otherSide) /\
  (side d = otherSide ->
     role (fst (chooseRole d otherSide)) = role d /\
     fst (chooseRole d otherSide) = d).
Proof.
  split; [|split; [|split]].
  - intros H. rewrite (chooseRole_greater _ _ H). split; reflexivity.
  - intros H. rewrite (chooseRole_less _ _ H). split; reflexivity.
  - split.
    + intros Herr.
      destruct (lex_trichotomy (side d) otherSide) as [H|[H|H]]; [|exact H|].
      * rewrite (chooseRole_less _ _ H) in Herr. now destruct Herr.
      * rewrite (chooseRole_greater _ _ H) in Herr. now destruct Herr.
    + intros <-. rewrite chooseRole_equal. discriminate.
  - intros <-. rewrite chooseRole_equal. split; reflexivity.
Qed.

Lemma chooseRole_election_witness :
  role (fst (chooseRole (InitDilation "ffffffffffffffff") "aaaaaaaaaaaaaaaa")) = Leader /\
  role (fst (chooseRole (InitDilation "aaaaaaaaaaaaaaaa") "ffffffffffffffff")) = Follower /\
  role (fst (chooseRole (InitDilation "aaaaaaaaaaaaaaaa") "aaaaaaaaaaaaaaaa")) = "".
Proof.
  split; [|split].
  - refine (proj1 (proj1 (chooseRole_election
                            (InitDilation "ffffffffffffffff") "aaaaaaaaaaaaaaaa") _)).
    apply string_compare_Lt_lex. reflexivity.
  - refine (proj1 (proj1 (proj2 (chooseRole_election
                                   (InitDilation "aaaaaaaaaaaaaaaa") "ffffffffffffffff")) _)).
    apply string_compare_Lt_lex. reflexivity.
  - refine (proj1 (proj2 (proj2 (proj2 (chooseRole_election
                                          (InitDilation "aaaaaaaaaaaaaaaa")
                                          "aaaaaaaaaaaaaaaa"))) _)).
    reflexivity.
Defined.

(** ** The manager *)

Lemma managerToNewState_same (d : dilationProtocol) :
  managerToNewState (managerState d) d = d.
Proof. now destruct d. Qed.

(** The code takes, on every state and event, the step of the table: listed
    pairs go where the table says and unlisted pairs change nothing. *)
Lemma managerStateMachine_table (d : dilationProtocol) (event : ManagerInputEvent) :
  managerStateMachine d event =
    (managerToNewState (fst (ManagerSpec.step (managerState d) event)) d,
     snd (ManagerSpec.step (managerState d) event)).
Proof.
  destruct d as [vs st ms cs ls r sd].
  unfold managerStateMachine, ManagerSpec.step, ManagerSpec.lookup.
  cbn [managerState Go.switch existsb ManagerSpec.transition_table find
       ManagerSpec.matches].
  switch_event event; cbn; switch_state ms; cbn; try reflexivity.
Qed.

Lemma ManagerSpec_step_Stopped (event : ManagerInputEvent) :
  ManagerSpec.step ManagerStateStopped event = (ManagerStateStopped, []).
Proof.
  unfold ManagerSpec.step, ManagerSpec.lookup.
  cbn [ManagerSpec.transition_table find ManagerSpec.matches].
  switch_event event; reflexivity.
Qed.

(** C2. Stopped is absorbing: whatever the input event, a manager in state
    Stopped stays in Stopped (the engine is not changed at all) and the
    list of output events is empty. *)
Theorem managerStateMachine_Stopped_absorbing
        (d : dilationProtocol) (event : ManagerInputEvent) :
  managerState d = ManagerStateStopped ->
  managerState (fst (managerStateMachine d event)) = ManagerStateStopped /\
  snd (managerStateMachine d event) = [] /\
  fst (managerStateMachine d event) = d.
Proof.
  intros H.
  rewrite managerStateMachine_table, H, ManagerSpec_step_Stopped. cbn [fst snd].
  rewrite <- H at 3. rewrite managerToNewState_same. auto.
Qed.

Lemma managerStateMachine_Stopped_absorbing_witness :
  let d := managerToNewState ManagerStateStopped (InitDilation "00112233aabbccdd") in
  managerState (fst (managerStateMachine d ManagerInputEventStart)) = ManagerStateStopped /\
  snd (managerStateMachine d ManagerInputEventStart) = [] /\
  fst (managerStateMachine d ManagerInputEventStart) = d.
Proof.
  apply (managerStateMachine_Stopped_absorbing
           (managerToNewState ManagerStateStopped (InitDilation "00112233aabbccdd"))
           ManagerInputEventStart).
  reflexivity.
Defined.

(** C3. The manager step is total and ignores unlisted pairs: on every
    engine and every input event (also an integer that names no event) it
    returns an engine and an output list, and when the pair of the current
    state and the event is not an entry of the transition table, the
    engine, so its manager state, is unchanged and the output list is
    empty. *)
Theorem managerStateMachine_total_ignores_unlisted
        (d : dilationProtocol) (event : ManagerInputEvent) :
  (exists d' outputEvents, managerStateMachine d event = (d', outputEvents)) /\
  (ManagerSpec.listed (managerState d) event = false ->
     managerStateMachine d event = (d, []) /\
     managerState (fst (managerStateMachine d event)) = managerState d).
Proof.
  split.
  - destruct (managerStateMachine d event) as [d' outs]. now exists d', outs.
  - unfold ManagerSpec.listed. intros H.
    rewrite managerStateMachine_table. unfold ManagerSpec.step.
    destruct (ManagerSpec.lookup (managerState d) event); [discriminate|].
    cbn [fst snd]. now rewrite managerToNewState_same.
Qed.

(** On a listed pair the code moves to the state and emits the outputs of
    the entry. *)
Lemma managerStateMachine_listed (d : dilationProtocol) (event : ManagerInputEvent)
      (s' : ManagerState) (outs : list ManagerOutputEvent) :
  In (managerState d, event, s', outs) ManagerSpec.transition_table ->
  managerStateMachine d event = (managerToNewState s' d, outs).
Proof.
  intros H. rewrite managerStateMachine_table.
  cbn [ManagerSpec.transition_table In] in H.
  repeat (destruct H as [H|H];
          [injection H as Hs He <- <-; rewrite <- Hs, <- He; reflexivity|]).
  destruct H.
Qed.

Lemma managerStateMachine_total_ignores_unlisted_witness :
  ManagerSpec.listed ManagerStateWaiting ManagerInputEventRxPlease = false /\
  managerStateMachine (InitDilation "00112233aabbccdd") ManagerInputEventRxPlease =
    (InitDilation "00112233aabbccdd", []).
Proof.
  split; [reflexivity|].
  apply (managerStateMachine_total_ignores_unlisted
           (InitDilation "00112233aabbccdd") ManagerInputEventRxPlease).
  reflexivity.
Defined.

(** ** The connector *)

Lemma connectorToNewState_same (d : dilationProtocol) :
  connectorToNewState (connectorState d) d = d.
Proof. now destruct d. Qed.

(** C8. In state Connecting the event AddRelay emits exactly UseHints then
    PublishHints, and the connector state remains Connecting (the engine is
    unchanged). *)
Theorem connectorStateMachine_AddRelay (d : dilationProtocol) :
  connectorState d = ConnectorStateConnecting ->
  connectorStateMachine d ConnectorInputEventAddRelay =
    (d, [ConnectorOutputEventUseHints; ConnectorOutputEventPublishHints]) /\
  connectorState (fst (connectorStateMachine d ConnectorInputEventAddRelay)) =
    ConnectorStateConnecting.
Proof.
  intros H. unfold connectorStateMachine. rewrite H. cbn. auto.
Qed.

Lemma connectorStateMachine_AddRelay_witness :
  let d := connectorToNewState ConnectorStateConnecting (InitDilation "00112233aabbccdd") in
  connectorStateMachine d ConnectorInputEventAddRelay =
    (d, [ConnectorOutputEventUseHints; ConnectorOutputEventPublishHints]) /\
  connectorState (fst (connectorStateMachine d ConnectorInputEventAddRelay)) =
    ConnectorStateConnecting.
Proof.
  apply (connectorStateMachine_AddRelay
           (connectorToNewState ConnectorStateConnecting
              (InitDilation "00112233aabbccdd"))).
  reflexivity.
Defined.

(** The connector emits at most two output events. *)
Lemma connectorStateMachine_outputs_short
      (d : dilationProtocol) (event : ConnectorInputEvent) :
  (List.length (snd (connectorStateMachine d event)) <= 2)%nat.
Proof.
  destruct d as [vs st ms cs ls r sd].
  unfold connectorStateMachine. cbn [connectorState Go.switch existsb].
  switch_event event; cbn; switch_state cs; cbn; lia.
Qed.

Section ConnectorPayloads.

Variable transitHintsV1 : Type.
Variable noHints : transitHintsV1.

(** The wrapper keeps the length of the output list: the indices 0 and 1
    are both values of output event constants, so each iteration appends
    one element. *)
Lemma processConnectorStateMachine_length
      (d : dilationProtocol) (input : ConnectorInputEventS.t transitHintsV1) :
  List.length (snd (processConnectorStateMachine noHints d input)) =
  List.length (snd (connectorStateMachine d (ConnectorInputEventS.Event input))).
Proof.
  unfold processConnectorStateMachine.
  pose proof (connectorStateMachine_outputs_short d (ConnectorInputEventS.Event input)) as Hlen.
  destruct (connectorStateMachine d (ConnectorInputEventS.Event input)) as [d' outputs].
  cbn [snd] in *.
  destruct outputs as [|o1 [|o2 [|o3 outputs]]]; cbn in *; try reflexivity; lia.
Qed.

(** The events of the wrapper's list do not depend on the events that the
    connector emitted, only on how many there are: the first element is
    always PublishHints and the second always SelectAndStopRemaining. *)
Lemma processConnectorStateMachine_by_index
      (d : dilationProtocol) (input : ConnectorInputEventS.t transitHintsV1) :
  snd (processConnectorStateMachine noHints d input) =
  flat_map (eventAtIndex noHints input)
           (Go.range_indices
              (snd (connectorStateMachine d (ConnectorInputEventS.Event input)))).
Proof.
  unfold processConnectorStateMachine.
  pose proof (connectorStateMachine_outputs_short d (ConnectorInputEventS.Event input)) as Hlen.
  destruct (connectorStateMachine d (ConnectorInputEventS.Event input)) as [d' outputs].
  cbn [snd] in *.
  destruct outputs as [|o1 [|o2 [|o3 outputs]]]; cbn in *; try reflexivity; lia.
Qed.

(** C6, on the code.  In state Connecting the event Accept makes the
    connector emit [SelectAndStopRemaining], but the wrapper returns one
    element whose event is PublishHints, carrying the input's hints and no
    candidate: the loop ranges over the indices of the output list.  In
    the same way AddRelay, for which the connector emits
    [UseHints; PublishHints], is wrapped as PublishHints followed by
    SelectAndStopRemaining.  In both cases the list differs from the one
    in which every output of the connector carries its payload. *)
Theorem processConnectorStateMachine_wraps_index
        (mySide : string) (h : transitHintsV1) (c : Candidate) :
  let d := connectorToNewState ConnectorStateConnecting (InitDilation mySide) in
  snd (connectorStateMachine d ConnectorInputEventAccept) =
    [ConnectorOutputEventSelectAndStopRemaining] /\
  snd (processConnectorStateMachine noHints d
         (ConnectorInputEventS.mk ConnectorInputEventAccept h c)) =
    [ConnectorOutputEventS.mk ConnectorOutputEventPublishHints h ""] /\
  snd (connectorStateMachine d ConnectorInputEventAddRelay) =
    [ConnectorOutputEventUseHints; ConnectorOutputEventPublishHints] /\
  snd (processConnectorStateMachine noHints d
         (ConnectorInputEventS.mk ConnectorInputEventAddRelay h c)) =
    [ConnectorOutputEventS.mk ConnectorOutputEventPublishHints h "";
     ConnectorOutputEventS.mk ConnectorOutputEventSelectAndStopRemaining noHints c] /\
  snd (processConnectorStateMachine noHints d
         (ConnectorInputEventS.mk ConnectorInputEventAccept h c)) <>
    snd (processConnectorSpec noHints d
           (ConnectorInputEventS.mk ConnectorInputEventAccept h c)) /\
  snd (processConnectorStateMachine noHints d
         (ConnectorInputEventS.mk ConnectorInputEventAddRelay h c)) <>
    snd (processConnectorSpec noHints d
           (ConnectorInputEventS.mk ConnectorInputEventAddRelay h c)).
Proof.
  cbn. repeat split;
    intros H; apply (f_equal (map ConnectorOutputEventS.Event)) in H;
    discriminate H.
Qed.

End ConnectorPayloads.

(** ** The L2 connection *)

(** C7. The L2 machine has exactly the four transitions of the list:
    Unselected with GotKCM moves to Selecting and emits [AddCandidate];
    Selecting with Select moves to Selected and emits SetManager,
    CanSendRecords, ProcessInboundQueue in that order; Selecting with
    GotRecord stays and emits [QueueInboundRecord]; Selected with GotRecord
    stays and emits [DeliverRecord]; every other pair of a state and an
    event leaves the engine unchanged and emits nothing.  A move changes
    the L2 state field and no other field of the engine. *)
Theorem l2ConnStateMachine_transitions
        (d : dilationProtocol) (event : L2ConnInputEvent) :
  (l2ConnState d = L2ConnStateUnselected /\ event = L2ConnInputEventGotKCM ->
     l2ConnState (fst (l2ConnStateMachine d event)) = L2ConnStateSelecting /\
     l2ConnStateMachine d event =
       (mkDilationProtocol (versions d) (state d) (managerState d)
          (connectorState d) L2ConnStateSelecting (role d) (side d),
        [L2ConnOutputEventAddCandidate])) /\
  (l2ConnState d = L2ConnStateSelecting /\ event = L2ConnInputEventSelect ->
     l2ConnState (fst (l2ConnStateMachine d event)) = L2ConnStateSelected /\
     l2ConnStateMachine d event =
       (mkDilationProtocol (versions d) (state d) (managerState d)
          (connectorState d) L2ConnStateSelected (role d) (side d),
        [L2ConnOutputEventSetManager; L2ConnOutputEventCanSendRecords;
         L2ConnOutputEventProcessInboundQueue])) /\
  (l2ConnState d = L2ConnStateSelecting /\ event = L2ConnInputEventGotRecord ->
     l2ConnState (fst (l2ConnStateMachine d event)) = L2ConnStateSelecting /\
     l2ConnStateMachine d event = (d, [L2ConnOutputEventQueueInboundRecord])) /\
  (l2ConnState d = L2ConnStateSelected /\ event = L2ConnInputEventGotRecord ->
     l2ConnState (fst (l2ConnStateMachine d event)) = L2ConnStateSelected /\
     l2ConnStateMachine d event = (d, [L2ConnOutputEventDeliverRecord])) /\
  (~ (l2ConnState d = L2ConnStateUnselected /\ event = L2ConnInputEventGotKCM) ->
   ~ (l2ConnState d = L2ConnStateSelecting /\ event = L2ConnInputEventSelect) ->
   ~ (l2ConnState d = L2ConnStateSelecting /\ event = L2ConnInputEventGotRecord) ->
   ~ (l2ConnState d = L2ConnStateSelected /\ event = L2ConnInputEventGotRecord) ->
     l2ConnState (fst (l2ConnStateMachine d event)) = l2ConnState d /\
     l2ConnStateMachine d event = (d, [])).
Proof.
  destruct d as [vs st ms cs ls r sd].
  cbn [l2ConnState versions state managerState connectorState role side].
  split; [|split; [|split; [|split]]].
  1-4: intros [-> ->]; split; reflexivity.
  intros H1 H2 H3 H4.
  unfold l2ConnStateMachine. cbn [l2ConnState Go.switch existsb].
  switch_event event; cbn; switch_state ls; cbn; try (split; reflexivity).
  - now destruct H1.
  - now destruct H2.
  - now destruct H3.
  - now destruct H4.
Qed.

Lemma l2ConnStateMachine_transitions_witness :
  let engine := fun s : L2ConnState =>
    mkDilationProtocol ["1"] 0 ManagerStateConnected ConnectorStateConnected s
      Leader "00112233aabbccdd" in
  (l2ConnState (fst (l2ConnStateMachine (engine L2ConnStateUnselected)
                       L2ConnInputEventGotKCM)) = L2ConnStateSelecting /\
   l2ConnState (fst (l2ConnStateMachine (engine L2ConnStateSelecting)
                       L2ConnInputEventSelect)) = L2ConnStateSelected /\
   l2ConnState (fst (l2ConnStateMachine (engine L2ConnStateSelecting)
                       L2ConnInputEventGotRecord)) = L2ConnStateSelecting /\
   l2ConnState (fst (l2ConnStateMachine (engine L2ConnStateSelected)
                       L2ConnInputEventGotRecord)) = L2ConnStateSelected) /\
  l2ConnStateMachine (engine L2ConnStateSelected) L2ConnInputEventSelect =
    (engine L2ConnStateSelected, []).
Proof.
  cbv zeta. split; [split; [|split; [|split]]|].
  - refine (proj1 (proj1 (l2ConnStateMachine_transitions _ _) _)).
    split; reflexivity.
  - refine (proj1 (proj1 (proj2 (l2ConnStateMachine_transitions _ _)) _)).
    split; reflexivity.
  - refine (proj1 (proj1 (proj2 (proj2 (l2ConnStateMachine_transitions _ _))) _)).
    split; reflexivity.
  - refine (proj1 (proj1 (proj2 (proj2 (proj2
              (l2ConnStateMachine_transitions _ _)))) _)).
    split; reflexivity.
  - refine (proj2 (proj2 (proj2 (proj2 (proj2
              (l2ConnStateMachine_transitions _ _)))) _ _ _ _));
      intros [H1 H2]; discriminate.
Defined.

(** The payload wrapper of the L2 machine has the loop of the connector's:
    Select in state Selecting is wrapped by index, as AddCandidate with the
    input's candidate, SetManager and CanSendRecords. *)
Lemma processL2ConnStateMachine_Select (mySide : string) (c : Candidate) :
  let d := l2ConnToNewState L2ConnStateSelecting (InitDilation mySide) in
  snd (l2ConnStateMachine d L2ConnInputEventSelect) =
    [L2ConnOutputEventSetManager; L2ConnOutputEventCanSendRecords;
     L2ConnOutputEventProcessInboundQueue] /\
  snd (processL2ConnStateMachine d (L2ConnInputEventS.mk L2ConnInputEventSelect c)) =
    [L2ConnOutputEventS.mk L2ConnOutputEventAddCandidate c;
     L2ConnOutputEventS.mk L2ConnOutputEventSetManager "";
     L2ConnOutputEventS.mk L2ConnOutputEventCanSendRecords ""].
Proof. cbn. split; reflexivity. Qed.

(** ** Equal sides *)

(** C9, as stated, fails: role election with the engine's own side returns
    the error, but the manager state is still Connecting, not Stopped. *)
Lemma chooseRole_equal_sides_not_Stopped :
  managerState equalSidesEngine = ManagerStateConnecting /\
  snd (chooseRole equalSidesEngine "0000000000000000") <> None /\
  managerState (fst (chooseRole equalSidesEngine "0000000000000000")) <>
    ManagerStateStopped.
Proof.
  cbn. repeat split; discriminate.
Qed.

(** C9, amended. When role election is invoked with a peer side equal to
    the local side, the error is returned to the caller and the engine is
    left exactly as it was: the manager state (and the role) keep their
    values, and moving to Stopped is left to the caller. *)
Theorem chooseRole_equal_sides_error (d : dilationProtocol) :
  snd (chooseRole d (side d)) = Go.errors_New "sides shouldn't be equal" /\
  fst (chooseRole d (side d)) = d /\
  managerState (fst (chooseRole d (side d))) = managerState d.
Proof.
  rewrite chooseRole_equal. cbn [fst snd]. auto.
Qed.

(** ** Creation *)

(** C10, on the code. A fresh engine has manager state Waiting and versions
    ["1"], but its connector state and its L2 state are the empty string,
    the zero value of their types, not Connecting and Unselected; both
    machines therefore ignore every event on a fresh engine. *)
Theorem InitDilation_states (mySide : string) :
  managerState (InitDilation mySide) = ManagerStateWaiting /\
  versions (InitDilation mySide) = ["1"] /\
  connectorState (InitDilation mySide) = "" /\
  l2ConnState (InitDilation mySide) = "" /\
  connectorState (InitDilation mySide) <> ConnectorStateConnecting /\
  l2ConnState (InitDilation mySide) <> L2ConnStateUnselected /\
  (forall event, connectorStateMachine (InitDilation mySide) event =
                   (InitDilation mySide, [])) /\
  (forall event, l2ConnStateMachine (InitDilation mySide) event =
                   (InitDilation mySide, [])).
Proof.
  repeat split; try discriminate.
  - intros event. unfold connectorStateMachine.
    cbn [connectorState InitDilation Go.switch existsb].
    switch_event event; reflexivity.
  - intros event. unfold l2ConnStateMachine.
    cbn [l2ConnState InitDilation Go.switch existsb].
    switch_event event; reflexivity.
Qed.

(** ** Frames *)

Lemma string_length_append (a b : string) :
  String.length (a ++ b) = (String.length a + String.length b)%nat.
Proof. induction a as [|c a IH]; simpl; [reflexivity|now rewrite IH]. Qed.

Lemma string_append_assoc (a b c : string) : ((a ++ b) ++ c = a ++ (b ++ c))%string.
Proof. induction a as [|x a IH]; simpl; [reflexivity|now rewrite IH]. Qed.

Lemma list_byte_of_string_inj (a b : string) :
  list_byte_of_string a = list_byte_of_string b -> a = b.
Proof.
  intros H.
  rewrite <- (string_of_list_byte_of_string a), <- (string_of_list_byte_of_string b).
  now rewrite H.
Qed.

(** An object with at least one member takes more than the two braces. *)
Lemma json_object_length (quote : string -> string) (m : string * string)
      (ms : list (string * string)) :
  (3 <= String.length (json.object quote (m :: ms)))%nat.
Proof.
  unfold json.object. cbn [map String.concat].
  assert (Hm : (1 <= String.length (json.member quote m))%nat).
  { unfold json.member. rewrite !string_length_append. simpl. lia. }
  destruct (map (json.member quote) ms);
    rewrite !string_length_append; simpl; lia.
Qed.

Lemma json_object_nonempty (quote : string -> string) (ms : list (string * string)) :
  ms <> [] -> list_byte_of_string "{}" <> list_byte_of_string (json.object quote ms).
Proof.
  intros Hms H. apply list_byte_of_string_inj in H.
  destruct ms as [|m ms]; [now apply Hms|].
  pose proof (json_object_length quote m ms) as Hlen.
  rewrite <- H in Hlen. simpl in Hlen. lia.
Qed.

Lemma WireSpec_please_object (s : string) :
  WireSpec.please s = json.object WireSpec.lit [("type", "please"); ("side", s)].
Proof. reflexivity. Qed.

Lemma WireSpec_add_object (p : list Byte.byte) (n : Z) :
  WireSpec.add p n =
  json.object WireSpec.lit
    [("type", "add"); ("phase", Sprintf_dilate n); ("body", hex.EncodeToString p)].
Proof.
  unfold WireSpec.add.
  generalize (Sprintf_dilate n) as phase, (hex.EncodeToString p) as body.
  intros phase body.
  unfold json.object, json.member, WireSpec.lit.
  cbn [map String.concat fst snd].
  now rewrite !string_append_assoc.
Qed.

(** No field of [pleaseMsg] or of [dilateAddMsg] is exported, so neither
    struct has a member to encode. *)
Lemma pleaseMsg_members (tipe sd : string) : json.members (pleaseMsg tipe sd) = [].
Proof. reflexivity. Qed.

Lemma dilateAddMsg_members (tipe phase body : string) :
  json.members (dilateAddMsg tipe phase body) = [].
Proof. reflexivity. Qed.

(** C4, on the code. [genPleaseMsg] returns without error, but what it
    returns is the empty object, two bytes, whatever the side: it is not the
    object with "type" please and "side" the engine's side. *)
Theorem genPleaseMsg_empty_object (quote : string -> string) (d : dilationProtocol) :
  genPleaseMsg quote d = (list_byte_of_string "{}", None) /\
  fst (genPleaseMsg quote d) <>
    list_byte_of_string (json.object quote [("type", "please"); ("side", side d)]) /\
  fst (genPleaseMsg quote d) <> list_byte_of_string (WireSpec.please (side d)).
Proof.
  assert (E : genPleaseMsg quote d = (list_byte_of_string "{}", None)) by reflexivity.
  rewrite E. cbn [fst]. repeat split.
  - now apply json_object_nonempty.
  - rewrite WireSpec_please_object. now apply json_object_nonempty.
Qed.

(** C5, on the code. [genDilationMsg] returns without error, but what it
    returns is the empty object whatever the payload and the phase: the
    phase string and the hexadecimal body are computed and then not
    encoded. *)
Theorem genDilationMsg_empty_object
        (quote : string -> string) (payload : list Byte.byte) (phase : Z) :
  genDilationMsg quote payload phase = (list_byte_of_string "{}", None) /\
  fst (genDilationMsg quote payload phase) <>
    list_byte_of_string
      (json.object quote
         [("type", "add"); ("phase", Sprintf_dilate phase);
          ("body", hex.EncodeToString payload)]) /\
  fst (genDilationMsg quote payload phase) <>
    list_byte_of_string (WireSpec.add payload phase).
Proof.
  assert (E : genDilationMsg quote payload phase = (list_byte_of_string "{}", None))
    by reflexivity.
  rewrite E. cbn [fst]. repeat split.
  - now apply json_object_nonempty.
  - rewrite WireSpec_add_object. now apply json_object_nonempty.
Qed.


(** * Further properties of the machines *)

(** ** Manager: single steps *)

Ltac manager_cases d event :=
  destruct d as [vs st ms cs ls r sd];
  unfold managerStateMachine;
  cbn [managerState Go.switch existsb];
  switch_event event; cbn; switch_state ms; cbn.

(** The manager becomes Connected in one way only: by ConnectionMade in
    state Connecting. *)
Theorem managerStateMachine_Connected_only_by_ConnectionMade
        (d : dilationProtocol) (event : ManagerInputEvent) :
  managerState (fst (managerStateMachine d event)) = ManagerStateConnected ->
  managerState d = ManagerStateConnected \/
  (managerState d = ManagerStateConnecting /\
   event = ManagerInputEventConnectionMade).
Proof.
  manager_cases d event; intros H; try discriminate H; auto.
Qed.

Lemma managerStateMachine_Connected_only_by_ConnectionMade_witness :
  managerState (managerToNewState ManagerStateConnecting (InitDilation "00112233aabbccdd")) =
    ManagerStateConnected \/
  (managerState (managerToNewState ManagerStateConnecting (InitDilation "00112233aabbccdd")) =
     ManagerStateConnecting /\
   ManagerInputEventConnectionMade = ManagerInputEventConnectionMade).
Proof.
  apply (managerStateMachine_Connected_only_by_ConnectionMade
           (managerToNewState ManagerStateConnecting (InitDilation "00112233aabbccdd"))
           ManagerInputEventConnectionMade).
  reflexivity.
Defined.

(** NotifyStopped is emitted exactly by the steps that enter Stopped: it is
    among the outputs of a step if and only if the manager was not in
    Stopped before the step and is in Stopped after it. *)
Theorem managerStateMachine_NotifyStopped_iff
        (d : dilationProtocol) (event : ManagerInputEvent) :
  In ManagerOutputEventNotifyStopped (snd (managerStateMachine d event)) <->
  (managerState d <> ManagerStateStopped /\
   managerState (fst (managerStateMachine d event)) = ManagerStateStopped).
Proof.
  manager_cases d event;
    (split; [intros H; repeat (destruct H as [H|H]; try discriminate H);
             try (split; [discriminate|reflexivity]); try contradiction
            |intros [H1 H2]; try discriminate H2; try contradiction;
             cbv; tauto]).
Qed.

(** A step enters Stopped only on Stop or on the loss of the connection. *)
Theorem managerStateMachine_Stopped_entered_by
        (d : dilationProtocol) (event : ManagerInputEvent) :
  managerState d <> ManagerStateStopped ->
  managerState (fst (managerStateMachine d event)) = ManagerStateStopped ->
  event = ManagerInputEventStop \/
  (managerState d = ManagerStateStopping /\
   (event = ManagerInputEventConnectionLostLeader \/
    event = ManagerInputEventConnectionLostFollower)).
Proof.
  manager_cases d event; intros H1 H2; try discriminate H2; try contradiction; auto.
Qed.

Lemma managerStateMachine_Stopped_entered_by_witness :
  ManagerInputEventStop = ManagerInputEventStop \/
  (managerState (InitDilation "00112233aabbccdd") = ManagerStateStopping /\
   (ManagerInputEventStop = ManagerInputEventConnectionLostLeader \/
    ManagerInputEventStop = ManagerInputEventConnectionLostFollower)).
Proof.
  apply (managerStateMachine_Stopped_entered_by
           (InitDilation "00112233aabbccdd") ManagerInputEventStop).
  - discriminate.
  - reflexivity.
Defined.

(** The named states are closed under steps, and an engine whose manager
    state is not a named state ignores every event. *)
Theorem managerStateMachine_named_states
        (d : dilationProtocol) (event : ManagerInputEvent) :
  (In (managerState d) managerStates ->
   In (managerState (fst (managerStateMachine d event))) managerStates) /\
  (~ In (managerState d) managerStates ->
   managerStateMachine d event = (d, [])).
Proof.
  split.
  - manager_cases d event; intros H; cbv; tauto.
  - rewrite managerStateMachine_table. destruct d as [vs st ms cs ls r sd].
    cbn [managerState]. intros H.
    assert (E : ManagerSpec.step ms event = (ms, [])).
    { unfold ManagerSpec.step, ManagerSpec.lookup.
      cbn [ManagerSpec.transition_table find ManagerSpec.matches].
      switch_event event; cbn; switch_state ms; cbn; try reflexivity;
        exfalso; apply H; cbv; tauto. }
    now rewrite E.
Qed.

(** A step emits at most three outputs; each is one of the output event
    constants, and never RxHints: the manager forwards no hints event. *)
Theorem managerStateMachine_outputs
        (d : dilationProtocol) (event : ManagerInputEvent) :
  (List.length (snd (managerStateMachine d event)) <= 3)%nat /\
  (forall o, In o (snd (managerStateMachine d event)) ->
             0 <= o <= 10 /\ o <> ManagerOutputEventRxHints).
Proof.
  manager_cases d event;
    (split; [lia|]); intros o H;
    repeat (destruct H as [H|H]; [subst o; split; [cbv; split; discriminate|discriminate]|]);
    destruct H.
Qed.

(** ** Frames from the peer *)

Lemma eventMap_lookup_Some (eventTxt : string) (event : ManagerInputEvent) :
  eventMap_lookup eventTxt = Some event ->
  (eventTxt = "please" /\ event = ManagerInputEventRxPlease) \/
  (eventTxt = "connection-hints" /\ event = ManagerInputEventRxHints) \/
  (eventTxt = "reconnect" /\ event = ManagerInputEventRxReconnect) \/
  (eventTxt = "reconnecting" /\ event = ManagerInputEventRxReconnecting).
Proof.
  unfold eventMap_lookup. cbn [eventMap find fst].
  switch_state eventTxt; cbn; intros H; try discriminate H;
    injection H as <-; auto 6.
Qed.

(** The type of a frame selects one of the four Rx events, and only the
    four keys select one; a frame type is matched exactly (case and all). *)
Theorem eventMap_lookup_spec (eventTxt : string) :
  eventMap_lookup eventTxt =
    (if String.eqb eventTxt "please" then Some ManagerInputEventRxPlease
     else if String.eqb eventTxt "connection-hints" then Some ManagerInputEventRxHints
     else if String.eqb eventTxt "reconnect" then Some ManagerInputEventRxReconnect
     else if String.eqb eventTxt "reconnecting" then Some ManagerInputEventRxReconnecting
     else None).
Proof.
  unfold eventMap_lookup. cbn [eventMap find fst].
  switch_state eventTxt; reflexivity.
Qed.

(** No frame received from the peer stops the manager or makes it
    Connected: for the event that [eventMap] gives for any frame type, a
    step never enters Stopped, never emits NotifyStopped, and never enters
    Connected. *)
Theorem peer_frame_never_stops_nor_connects
        (d : dilationProtocol) (eventTxt : string) (event : ManagerInputEvent) :
  eventMap_lookup eventTxt = Some event ->
  (managerState (fst (managerStateMachine d event)) = ManagerStateStopped ->
   managerState d = ManagerStateStopped) /\
  ~ In ManagerOutputEventNotifyStopped (snd (managerStateMachine d event)) /\
  (managerState (fst (managerStateMachine d event)) = ManagerStateConnected ->
   managerState d = ManagerStateConnected).
Proof.
  intros Hmap.
  destruct (eventMap_lookup_Some _ _ Hmap) as [[_ ->]|[[_ ->]|[[_ ->]|[_ ->]]]];
    destruct d as [vs st ms cs ls r sd];
    unfold managerStateMachine; cbn [managerState Go.switch existsb]; cbn;
    switch_state ms; cbn;
    (split; [|split];
     [ intros H; try discriminate H; try reflexivity; try assumption
     | intros H; repeat (destruct H as [H|H]; try discriminate H); try contradiction
     | intros H; try discriminate H; try reflexivity; try assumption ]).
Qed.

Lemma peer_frame_never_stops_nor_connects_witness :
  ~ In ManagerOutputEventNotifyStopped
      (snd (managerStateMachine (InitDilation "00112233aabbccdd")
              ManagerInputEventRxReconnect)).
Proof.
  apply (peer_frame_never_stops_nor_connects
           (InitDilation "00112233aabbccdd") "reconnect" ManagerInputEventRxReconnect).
  reflexivity.
Defined.

(** ** Manager: sequences of events *)


Lemma managerStateMachine_at_Stopped (d : dilationProtocol) (event : ManagerInputEvent) :
  managerState d = ManagerStateStopped -> managerStateMachine d event = (d, []).
Proof.
  intros H. rewrite managerStateMachine_table, H, ManagerSpec_step_Stopped.
  cbn [fst snd]. rewrite <- H. now rewrite managerToNewState_same.
Qed.

Lemma managerRun_at_Stopped (d : dilationProtocol) (events : list ManagerInputEvent) :
  managerState d = ManagerStateStopped -> managerRun d events = (d, []).
Proof.
  intros H. unfold managerRun.
  induction events as [|e es IH]; cbn [runMachine]; [reflexivity|].
  now rewrite (managerStateMachine_at_Stopped d e H), IH.
Qed.

Lemma managerStateMachine_notify
      (d : dilationProtocol) (event : ManagerInputEvent) :
  (count_occ Z.eq_dec (snd (managerStateMachine d event))
             ManagerOutputEventNotifyStopped <= 1)%nat /\
  (In ManagerOutputEventNotifyStopped (snd (managerStateMachine d event)) ->
   managerState (fst (managerStateMachine d event)) = ManagerStateStopped).
Proof.
  manager_cases d event;
    (split; [cbv; lia|]); intros H;
    repeat (destruct H as [H|H]; try discriminate H); try contradiction;
    reflexivity.
Qed.

(** Whatever the sequence of events and the engine it starts from, the
    manager emits NotifyStopped at most once. *)
Theorem managerRun_NotifyStopped_at_most_once
        (d : dilationProtocol) (events : list ManagerInputEvent) :
  (count_occ Z.eq_dec (snd (managerRun d events))
             ManagerOutputEventNotifyStopped <= 1)%nat.
Proof.
  unfold managerRun. revert d.
  induction events as [|e es IH]; intros d; cbn [runMachine]; [cbn; lia|].
  destruct (managerStateMachine_notify d e) as [Hc Hs].
  destruct (managerStateMachine d e) as [d1 o1]. cbn [fst snd] in *.
  specialize (IH d1).
  destruct (in_dec Z.eq_dec ManagerOutputEventNotifyStopped o1) as [Hin|Hnin].
  - pose proof (managerRun_at_Stopped d1 es (Hs Hin)) as R. unfold managerRun in R.
    rewrite R. cbn [snd]. now rewrite app_nil_r.
  - destruct (runMachine managerStateMachine d1 es) as [d2 o2]. cbn [snd] in *.
    rewrite count_occ_app.
    apply (count_occ_not_In Z.eq_dec) in Hnin.
    unfold ManagerOutputEvent in *. lia.
Qed.

(** Once the manager is in Stopped, no sequence of events changes the
    engine or produces an output. *)
Theorem managerRun_Stopped_absorbing
        (d : dilationProtocol) (events : list ManagerInputEvent) :
  managerState d = ManagerStateStopped -> managerRun d events = (d, []).
Proof.
  intros H. unfold managerRun.
  induction events as [|e es IH]; cbn [runMachine]; [reflexivity|].
  rewrite (managerStateMachine_at_Stopped d e H). now rewrite IH.
Qed.

Lemma managerRun_Stopped_absorbing_witness :
  managerRun (managerToNewState ManagerStateStopped (InitDilation "00112233aabbccdd"))
             [ManagerInputEventStart; ManagerInputEventRxPlease; ManagerInputEventStop] =
    (managerToNewState ManagerStateStopped (InitDilation "00112233aabbccdd"), []).
Proof.
  apply (managerRun_Stopped_absorbing
           (managerToNewState ManagerStateStopped (InitDilation "00112233aabbccdd"))
           [ManagerInputEventStart; ManagerInputEventRxPlease; ManagerInputEventStop]).
  reflexivity.
Defined.

(** Shutdown always completes: from each of the nine named states, Stop
    followed by the loss of the connection (reported as leader or as
    follower) leaves the manager in Stopped. *)
Theorem managerRun_Stop_then_lost
        (d : dilationProtocol) (lost : ManagerInputEvent) :
  In (managerState d) managerStates ->
  lost = ManagerInputEventConnectionLostLeader \/
  lost = ManagerInputEventConnectionLostFollower ->
  managerState (fst (managerRun d [ManagerInputEventStop; lost])) =
    ManagerStateStopped.
Proof.
  destruct d as [vs st ms cs ls r sd]. cbn [managerState managerStates In].
  intros Hs [-> | ->];
    repeat (destruct Hs as [<-|Hs]; [reflexivity|]); destruct Hs.
Qed.

Lemma managerRun_Stop_then_lost_witness :
  managerState
    (fst (managerRun (managerToNewState ManagerStateConnected
                        (InitDilation "00112233aabbccdd"))
            [ManagerInputEventStop; ManagerInputEventConnectionLostFollower])) =
    ManagerStateStopped.
Proof.
  apply (managerRun_Stop_then_lost
           (managerToNewState ManagerStateConnected (InitDilation "00112233aabbccdd"))
           ManagerInputEventConnectionLostFollower).
  - cbv. tauto.
  - right. reflexivity.
Defined.

(** Reconnection is a round trip: from an engine in Connected, the loss of
    the connection as leader followed by the peer's reconnecting and a new
    connection, and the loss as follower followed by the peer's reconnect and
    a new connection, both give back the engine as it was. *)
Theorem managerRun_reconnect_round_trip (d : dilationProtocol) :
  managerState d = ManagerStateConnected ->
  managerRun d [ManagerInputEventConnectionLostLeader;
                ManagerInputEventRxReconnecting;
                ManagerInputEventConnectionMade] =
    (d, [ManagerOutputEventSendReconnect; ManagerOutputEventStartConnecting]) /\
  managerRun d [ManagerInputEventConnectionLostFollower;
                ManagerInputEventRxReconnect;
                ManagerInputEventConnectionMade] =
    (d, [ManagerOutputEventSendReconnecting; ManagerOutputEventStartConnecting]).
Proof.
  destruct d as [vs st ms cs ls r sd]. cbn [managerState]. intros ->.
  split; reflexivity.
Qed.

Lemma managerRun_reconnect_round_trip_witness :
  let d := managerToNewState ManagerStateConnected (InitDilation "00112233aabbccdd") in
  managerRun d [ManagerInputEventConnectionLostLeader;
                ManagerInputEventRxReconnecting;
                ManagerInputEventConnectionMade] =
    (d, [ManagerOutputEventSendReconnect; ManagerOutputEventStartConnecting]) /\
  managerRun d [ManagerInputEventConnectionLostFollower;
                ManagerInputEventRxReconnect;
                ManagerInputEventConnectionMade] =
    (d, [ManagerOutputEventSendReconnecting; ManagerOutputEventStartConnecting]).
Proof.
  apply (managerRun_reconnect_round_trip
           (managerToNewState ManagerStateConnected (InitDilation "00112233aabbccdd"))).
  reflexivity.
Defined.

(** ** Connector *)

Lemma connectorStateMachine_step (d : dilationProtocol) (event : ConnectorInputEvent) :
  connectorStateMachine d event =
    (connectorToNewState (fst (ConnectorTable.step (connectorState d) event)) d,
     snd (ConnectorTable.step (connectorState d) event)).
Proof.
  destruct d as [vs st ms cs ls r sd].
  unfold connectorStateMachine, ConnectorTable.step.
  cbn [connectorState Go.switch existsb ConnectorTable.transitions find
       ConnectorTable.matches].
  switch_event event; cbn; switch_state cs; cbn; reflexivity.
Qed.

(** The connector has exactly seven transitions with an effect: in
    Connecting, ListenerReady, AddCandidate, GotHints and AddRelay emit their
    outputs and stay, Accept moves to Connected and Stop to Stopped; in
    Connected, Stop moves to Stopped.  A transition sets the connector state
    field to the state of its entry and changes no other field.  On every
    other pair of a state and an event, the engine is unchanged and nothing
    is emitted. *)
Theorem connectorStateMachine_transitions
        (d : dilationProtocol) (event : ConnectorInputEvent) :
  (forall s' outs,
     In (connectorState d, event, s', outs) ConnectorTable.transitions ->
     connectorState (fst (connectorStateMachine d event)) = s' /\
     connectorStateMachine d event =
       (mkDilationProtocol (versions d) (state d) (managerState d) s'
          (l2ConnState d) (role d) (side d), outs)) /\
  ((forall s' outs,
      ~ In (connectorState d, event, s', outs) ConnectorTable.transitions) ->
   connectorState (fst (connectorStateMachine d event)) = connectorState d /\
   connectorStateMachine d event = (d, [])).
Proof.
  split.
  - intros s' outs H. rewrite connectorStateMachine_step.
    cbn [ConnectorTable.transitions In] in H.
    repeat (destruct H as [H|H];
            [injection H as Hs He <- <-; rewrite <- Hs, <- He;
             split; reflexivity|]).
    destruct H.
  - intros H. rewrite connectorStateMachine_step.
    assert (E : ConnectorTable.step (connectorState d) event = (connectorState d, [])).
    { unfold ConnectorTable.step.
      destruct (find (ConnectorTable.matches (connectorState d) event)
                     ConnectorTable.transitions) as [[[[s0 e0] s'] outs]|] eqn:F;
        [|reflexivity].
      apply find_some in F. destruct F as [Hin Hm].
      cbn [ConnectorTable.matches] in Hm.
      apply andb_true_iff in Hm. destruct Hm as [He Hs].
      apply Z.eqb_eq in He. apply String.eqb_eq in Hs. subst s0 e0.
      now destruct (H s' outs). }
    rewrite E. cbn [fst snd]. rewrite connectorToNewState_same. split; reflexivity.
Qed.

Lemma connectorStateMachine_transitions_witness :
  let engine := fun s : ConnectorState =>
    mkDilationProtocol ["1"] 0 ManagerStateConnecting s L2ConnStateUnselected
      Leader "00112233aabbccdd" in
  connectorState (fst (connectorStateMachine (engine ConnectorStateConnecting)
                         ConnectorInputEventAccept)) = ConnectorStateConnected /\
  connectorState (fst (connectorStateMachine (engine ConnectorStateConnected)
                         ConnectorInputEventStop)) = ConnectorStateStopped /\
  connectorStateMachine (engine ConnectorStateConnected) ConnectorInputEventAccept =
    (engine ConnectorStateConnected, []).
Proof.
  cbv zeta. split; [|split].
  - refine (proj1 (proj1 (connectorStateMachine_transitions _ _) _
                     [ConnectorOutputEventSelectAndStopRemaining] _)).
    cbv. tauto.
  - refine (proj1 (proj1 (connectorStateMachine_transitions _ _) _
                     [ConnectorOutputEventStopEverything] _)).
    cbv. tauto.
  - refine (proj2 (proj2 (connectorStateMachine_transitions _ _) _)).
    intros s' outs H. cbn in H.
    repeat (destruct H as [H|H]; [discriminate H|]). destruct H.
Defined.

Lemma connectorStateMachine_not_Connecting
      (d : dilationProtocol) (event : ConnectorInputEvent) :
  connectorState d <> ConnectorStateConnecting ->
  connectorState (fst (connectorStateMachine d event)) <> ConnectorStateConnecting /\
  ~ In ConnectorOutputEventSelectAndStopRemaining (snd (connectorStateMachine d event)).
Proof.
  destruct d as [vs st ms cs ls r sd].
  unfold connectorStateMachine. cbn [connectorState Go.switch existsb].
  switch_event event; cbn; switch_state cs; cbn; intros H;
    try contradiction; (split; [try assumption; discriminate|]);
    intros F; repeat (destruct F as [F|F]; try discriminate F); contradiction.
Qed.

Lemma connectorStateMachine_select
      (d : dilationProtocol) (event : ConnectorInputEvent) :
  (count_occ Z.eq_dec (snd (connectorStateMachine d event))
             ConnectorOutputEventSelectAndStopRemaining <= 1)%nat /\
  (In ConnectorOutputEventSelectAndStopRemaining (snd (connectorStateMachine d event)) ->
   connectorState (fst (connectorStateMachine d event)) <> ConnectorStateConnecting).
Proof.
  destruct d as [vs st ms cs ls r sd].
  unfold connectorStateMachine. cbn [connectorState Go.switch existsb].
  switch_event event; cbn; switch_state cs; cbn;
    (split; [cbv; lia|]); intros F;
    repeat (destruct F as [F|F]; try discriminate F); try contradiction;
    discriminate.
Qed.

Lemma connectorRun_not_Connecting
      (d : dilationProtocol) (events : list ConnectorInputEvent) :
  connectorState d <> ConnectorStateConnecting ->
  ~ In ConnectorOutputEventSelectAndStopRemaining (snd (connectorRun d events)).
Proof.
  unfold connectorRun. revert d.
  induction events as [|e es IH]; intros d H; cbn [runMachine]; [intros []|].
  destruct (connectorStateMachine_not_Connecting d e H) as [H1 H2].
  destruct (connectorStateMachine d e) as [d1 o1]. cbn [fst snd] in *.
  specialize (IH d1 H1).
  destruct (runMachine connectorStateMachine d1 es) as [d2 o2]. cbn [snd] in *.
  intros F. apply in_app_or in F. tauto.
Qed.

(** A single winner: whatever the sequence of events and the engine it
    starts from, the connector emits SelectAndStopRemaining at most once. *)
Theorem connectorRun_select_at_most_once
        (d : dilationProtocol) (events : list ConnectorInputEvent) :
  (count_occ Z.eq_dec (snd (connectorRun d events))
             ConnectorOutputEventSelectAndStopRemaining <= 1)%nat.
Proof.
  unfold connectorRun. revert d.
  induction events as [|e es IH]; intros d; cbn [runMachine]; [cbn; lia|].
  destruct (connectorStateMachine_select d e) as [Hc Hs].
  destruct (connectorStateMachine d e) as [d1 o1]. cbn [fst snd] in *.
  specialize (IH d1).
  pose proof (connectorRun_not_Connecting d1 es) as Hrun. unfold connectorRun in Hrun.
  destruct (runMachine connectorStateMachine d1 es) as [d2 o2]. cbn [snd] in *.
  rewrite count_occ_app.
  destruct (in_dec Z.eq_dec ConnectorOutputEventSelectAndStopRemaining o1) as [Hin|Hnin].
  - specialize (Hrun (Hs Hin)). apply (count_occ_not_In Z.eq_dec) in Hrun.
    unfold ConnectorOutputEvent in *. lia.
  - apply (count_occ_not_In Z.eq_dec) in Hnin.
    unfold ConnectorOutputEvent in *. lia.
Qed.

Lemma connectorStateMachine_after_Stop
      (d : dilationProtocol) (event : ConnectorInputEvent) :
  connectorState d <> ConnectorStateConnecting ->
  connectorState d <> ConnectorStateConnected ->
  connectorStateMachine d event = (d, []).
Proof.
  destruct d as [vs st ms cs ls r sd].
  unfold connectorStateMachine. cbn [connectorState Go.switch existsb].
  switch_event event; cbn; switch_state cs; cbn; intros H1 H2;
    try contradiction; reflexivity.
Qed.

(** Stop is final for the connector: after a Stop event, in whatever state
    it arrives, no later sequence of events changes the engine or produces
    an output; and Stop itself emits StopEverything exactly when the
    connector was in Connecting or Connected. *)
Theorem connectorRun_after_Stop
        (d : dilationProtocol) (events : list ConnectorInputEvent) :
  let d1 := fst (connectorStateMachine d ConnectorInputEventStop) in
  connectorRun d1 events = (d1, []) /\
  (snd (connectorStateMachine d ConnectorInputEventStop) =
     if String.eqb (connectorState d) ConnectorStateConnecting
        || String.eqb (connectorState d) ConnectorStateConnected
     then [ConnectorOutputEventStopEverything] else []).
Proof.
  cbv zeta. split.
  - assert (H : connectorState (fst (connectorStateMachine d ConnectorInputEventStop))
                  <> ConnectorStateConnecting /\
                connectorState (fst (connectorStateMachine d ConnectorInputEventStop))
                  <> ConnectorStateConnected).
    { destruct d as [vs st ms cs ls r sd].
      unfold connectorStateMachine. cbn [connectorState Go.switch existsb]. cbn.
      switch_state cs; cbn; split; solve [discriminate | assumption]. }
    destruct H as [H1 H2].
    generalize dependent (fst (connectorStateMachine d ConnectorInputEventStop)).
    intros d1 H1 H2. unfold connectorRun.
    induction events as [|e es IH]; cbn [runMachine]; [reflexivity|].
    now rewrite (connectorStateMachine_after_Stop d1 e H1 H2), IH.
  - destruct d as [vs st ms cs ls r sd].
    unfold connectorStateMachine. cbn [connectorState Go.switch existsb]. cbn.
    switch_state cs; reflexivity.
Qed.

(** ** L2 connection *)

Lemma l2ConnToNewState_same (d : dilationProtocol) :
  l2ConnToNewState (l2ConnState d) d = d.
Proof. now destruct d. Qed.

Lemma l2ConnStateMachine_step (d : dilationProtocol) (event : L2ConnInputEvent) :
  l2ConnStateMachine d event =
    (l2ConnToNewState (fst (L2ConnTable.step (l2ConnState d) event)) d,
     snd (L2ConnTable.step (l2ConnState d) event)).
Proof.
  destruct d as [vs st ms cs ls r sd].
  unfold l2ConnStateMachine, L2ConnTable.step.
  cbn [l2ConnState Go.switch existsb L2ConnTable.transitions find L2ConnTable.matches].
  switch_event event; cbn; switch_state ls; cbn; reflexivity.
Qed.

Lemma l2ConnStateMachine_Selected (d : dilationProtocol) (event : L2ConnInputEvent) :
  l2ConnState d = L2ConnStateSelected ->
  l2ConnStateMachine d event =
    (d, if Z.eqb event L2ConnInputEventGotRecord
        then [L2ConnOutputEventDeliverRecord] else []).
Proof.
  destruct d as [vs st ms cs ls r sd]. cbn [l2ConnState]. intros ->.
  unfold l2ConnStateMachine. cbn [l2ConnState Go.switch existsb].
  switch_event event; reflexivity.
Qed.

(** Once selected, the L2 connection stays selected and only delivers: over
    any sequence of events the engine is unchanged and the outputs are one
    DeliverRecord for each GotRecord, nothing else; no record is queued any
    more. *)
Theorem l2ConnRun_Selected (d : dilationProtocol) (events : list L2ConnInputEvent) :
  l2ConnState d = L2ConnStateSelected ->
  l2ConnRun d events =
    (d, map (fun _ => L2ConnOutputEventDeliverRecord)
            (filter (fun e => Z.eqb e L2ConnInputEventGotRecord) events)).
Proof.
  intros H. unfold l2ConnRun.
  induction events as [|e es IH]; cbn [runMachine filter map]; [reflexivity|].
  rewrite (l2ConnStateMachine_Selected d e H), IH.
  destruct (Z.eqb e L2ConnInputEventGotRecord); reflexivity.
Qed.

Lemma l2ConnRun_Selected_witness :
  let d := l2ConnToNewState L2ConnStateSelected (InitDilation "00112233aabbccdd") in
  l2ConnRun d [L2ConnInputEventGotRecord; L2ConnInputEventSelect;
               L2ConnInputEventGotKCM; L2ConnInputEventGotRecord] =
    (d, [L2ConnOutputEventDeliverRecord; L2ConnOutputEventDeliverRecord]).
Proof.
  apply (l2ConnRun_Selected
           (l2ConnToNewState L2ConnStateSelected (InitDilation "00112233aabbccdd"))
           [L2ConnInputEventGotRecord; L2ConnInputEventSelect;
            L2ConnInputEventGotKCM; L2ConnInputEventGotRecord]).
  reflexivity.
Defined.




(** The state of the L2 connection only moves forward: a step never leaves
    Selected, and never returns to Unselected from another state. *)
Theorem l2ConnStateMachine_forward (d : dilationProtocol) (event : L2ConnInputEvent) :
  (l2ConnState d = L2ConnStateSelected ->
   l2ConnState (fst (l2ConnStateMachine d event)) = L2ConnStateSelected) /\
  (l2ConnState (fst (l2ConnStateMachine d event)) = L2ConnStateUnselected ->
   l2ConnState d = L2ConnStateUnselected) /\
  (l2ConnState (fst (l2ConnStateMachine d event)) = L2ConnStateSelecting ->
   l2ConnState d = L2ConnStateSelecting \/
   (l2ConnState d = L2ConnStateUnselected /\ event = L2ConnInputEventGotKCM)).
Proof.
  destruct d as [vs st ms cs ls r sd].
  unfold l2ConnStateMachine. cbn [l2ConnState Go.switch existsb].
  switch_event event; cbn; switch_state ls; cbn;
    (split; [|split]); intros H; try discriminate H; auto.
Qed.

(** ** The machines are independent *)

(** Each machine reads and writes its own state field only, so steps of
    different machines commute: the engine at the end and the outputs of
    each machine do not depend on the order in which a manager event, a
    connector event and an L2 event are handled. *)
Theorem machines_commute (d : dilationProtocol)
        (me : ManagerInputEvent) (ce : ConnectorInputEvent) (le : L2ConnInputEvent) :
  (let '(d1, mo) := managerStateMachine d me in
   let '(d2, co) := connectorStateMachine d1 ce in (d2, mo, co)) =
  (let '(d1, co) := connectorStateMachine d ce in
   let '(d2, mo) := managerStateMachine d1 me in (d2, mo, co)) /\
  (let '(d1, mo) := managerStateMachine d me in
   let '(d2, lo) := l2ConnStateMachine d1 le in (d2, mo, lo)) =
  (let '(d1, lo) := l2ConnStateMachine d le in
   let '(d2, mo) := managerStateMachine d1 me in (d2, mo, lo)) /\
  (let '(d1, co) := connectorStateMachine d ce in
   let '(d2, lo) := l2ConnStateMachine d1 le in (d2, co, lo)) =
  (let '(d1, lo) := l2ConnStateMachine d le in
   let '(d2, co) := connectorStateMachine d1 ce in (d2, co, lo)).
Proof.
  rewrite (managerStateMachine_table d me), (connectorStateMachine_step d ce),
    (l2ConnStateMachine_step d le).
  cbv beta iota zeta.
  rewrite !managerStateMachine_table, !connectorStateMachine_step,
    !l2ConnStateMachine_step.
  repeat split.
Qed.

(** ** Payload wrappers *)

Lemma l2ConnStateMachine_outputs_short
      (d : dilationProtocol) (event : L2ConnInputEvent) :
  (List.length (snd (l2ConnStateMachine d event)) <= 3)%nat.
Proof.
  destruct d as [vs st ms cs ls r sd].
  unfold l2ConnStateMachine. cbn [l2ConnState Go.switch existsb].
  switch_event event; cbn; switch_state ls; cbn; lia.
Qed.

(** The wrapper of the L2 machine passes the engine of the machine on and
    returns one element per output of the machine, but the element at index
    [i] is the output event whose value is [i]: AddCandidate with the
    input's candidate first, then SetManager, then CanSendRecords.  So no
    element of its result is ProcessInboundQueue, QueueInboundRecord or
    DeliverRecord. *)
Theorem processL2ConnStateMachine_by_index
        (d : dilationProtocol) (input : L2ConnInputEventS.t) :
  fst (processL2ConnStateMachine d input) =
    fst (l2ConnStateMachine d (L2ConnInputEventS.Event input)) /\
  snd (processL2ConnStateMachine d input) =
    flat_map (l2EventAtIndex input)
             (Go.range_indices
                (snd (l2ConnStateMachine d (L2ConnInputEventS.Event input)))) /\
  List.length (snd (processL2ConnStateMachine d input)) =
    List.length (snd (l2ConnStateMachine d (L2ConnInputEventS.Event input))) /\
  (forall o, In o (snd (processL2ConnStateMachine d input)) ->
             0 <= L2ConnOutputEventS.Event o <= 2).
Proof.
  unfold processL2ConnStateMachine.
  pose proof (l2ConnStateMachine_outputs_short d (L2ConnInputEventS.Event input)) as Hlen.
  destruct (l2ConnStateMachine d (L2ConnInputEventS.Event input)) as [d' outputs].
  cbn [fst snd] in *.
  destruct outputs as [|o1 [|o2 [|o3 [|o4 outputs]]]]; cbn in Hlen; try lia;
    (split; [reflexivity|split; [reflexivity|split; [reflexivity|]]]);
    cbn; intros o H;
    repeat (destruct H as [H|H]; [subst o; cbv; split; discriminate|]); destruct H.
Qed.

(** The wrapper of the connector passes the engine of the connector on, and
    no element of its result is Consider, UseHints or StopEverything: the
    events it returns are PublishHints and SelectAndStopRemaining only. *)
Theorem processConnectorStateMachine_events
        (transitHintsV1 : Type) (noHints : transitHintsV1)
        (d : dilationProtocol) (input : ConnectorInputEventS.t transitHintsV1) :
  fst (processConnectorStateMachine noHints d input) =
    fst (connectorStateMachine d (ConnectorInputEventS.Event input)) /\
  (forall o, In o (snd (processConnectorStateMachine noHints d input)) ->
             ConnectorOutputEventS.Event o = ConnectorOutputEventPublishHints \/
             ConnectorOutputEventS.Event o = ConnectorOutputEventSelectAndStopRemaining).
Proof.
  unfold processConnectorStateMachine.
  pose proof (connectorStateMachine_outputs_short d (ConnectorInputEventS.Event input))
    as Hlen.
  destruct (connectorStateMachine d (ConnectorInputEventS.Event input)) as [d' outputs].
  cbn [fst snd] in *.
  destruct outputs as [|o1 [|o2 [|o3 outputs]]]; cbn in Hlen; try lia;
    (split; [reflexivity|]); cbn; intros o H;
    repeat (destruct H as [H|H]; [subst o; cbn; auto|]); destruct H.
Qed.

(** ** Role election, between two engines and repeated *)

(** Two engines with different sides, each electing its role against the
    side of the other, both succeed and get opposite roles: exactly one is
    Leader and the other is Follower. *)
Theorem chooseRole_opposite (a b : dilationProtocol) :
  side a <> side b ->
  snd (chooseRole a (side b)) = None /\
  snd (chooseRole b (side a)) = None /\
  ((role (fst (chooseRole a (side b))) = Leader /\
    role (fst (chooseRole b (side a))) = Follower) \/
   (role (fst (chooseRole a (side b))) = Follower /\
    role (fst (chooseRole b (side a))) = Leader)).
Proof.
  intros Hne.
  destruct (lex_trichotomy (side a) (side b)) as [H|[H|H]]; [|contradiction|].
  - rewrite (chooseRole_less a _ H), (chooseRole_greater b _ H). cbn. auto.
  - rewrite (chooseRole_greater a _ H), (chooseRole_less b _ H). cbn. auto.
Qed.

Lemma chooseRole_opposite_witness :
  role (fst (chooseRole (InitDilation "aaaaaaaaaaaaaaaa") "ffffffffffffffff")) = Follower /\
  role (fst (chooseRole (InitDilation "ffffffffffffffff") "aaaaaaaaaaaaaaaa")) = Leader.
Proof.
  destruct (chooseRole_opposite (InitDilation "aaaaaaaaaaaaaaaa")
                                (InitDilation "ffffffffffffffff"))
    as (_ & _ & [[H _]|H]).
  - discriminate.
  - discriminate H.
  - exact H.
Defined.



(** ** Wormhole codes *)

Lemma strings_Contains_space (s : string) :
  strings_Contains s " " = true <-> In " "%char (list_ascii_of_string s).
Proof.
  induction s as [|c s IH]; cbn [strings_Contains list_ascii_of_string In].
  - cbn. split; [discriminate|tauto].
  - rewrite orb_true_iff, IH. cbn [String.prefix].
    destruct (ascii_dec " " c) as [<-|Hne].
    + split; auto. intros _. left. now destruct s.
    + split.
      * intros [H|H]; [discriminate H|right; exact H].
      * intros [H|H]; [now destruct Hne|right; exact H].
Qed.

(** [validateCode] accepts a code exactly when it is empty, or when the
    nameplate parses and the code holds no space.  The empty code is
    accepted without being parsed, and for a non-empty code the error of the
    nameplate comes before the error about spaces. *)
Theorem validateCode_accepts
        (nameplateFromCode : string -> string * Go.error) (code : string) :
  (validateCode nameplateFromCode code = None <->
   code = "" \/
   (snd (nameplateFromCode code) = None /\
    ~ In " "%char (list_ascii_of_string code))) /\
  (code <> "" -> forall e, snd (nameplateFromCode code) = Some e ->
   validateCode nameplateFromCode code = Some e).
Proof.
  unfold validateCode.
  destruct (String.eqb_spec code "") as [->|Hne].
  - split; [tauto|]. intros H. now destruct H.
  - destruct (nameplateFromCode code) as [np [e|]]; cbn [snd].
    + split.
      * split; [discriminate|]. intros [H|[H _]]; [contradiction|discriminate H].
      * intros _ e' H. exact H.
    + split.
      * destruct (strings_Contains code " ") eqn:C.
        -- apply strings_Contains_space in C.
           split; [discriminate|]. intros [H|[_ H]]; [contradiction|now destruct H].
        -- split; [|reflexivity]. intros _. right. split; [reflexivity|].
           intros H. apply strings_Contains_space in H. congruence.
      * intros _ e H. discriminate H.
Qed.
